(** * server-scratch: request framing and the reactor callbacks

    A shallow embedding of the incremental HTTP request framer
    ([internal/http/parser.go], duplicated in [internal/evio/handler.go])
    and of the per-connection callbacks of the two reactor backends
    ([internal/loop/gnet/engine.go] and [internal/evio/handler.go]),
    followed by the properties of the design document that concern them.

    Conventions.  A Go [[]byte] is a [list byte]; a Go [int] is a [Z]
    (indices and lengths stay far below 2^63, so no wrap-around occurs on
    them); a Go [(bool, error)] result is a [bool * option error], with
    [None] for the nil error; a [[]byte] result that may be nil is an
    [option (list byte)]. *)

From Stdlib Require Import String Strings.Byte.
From Stdlib Require Import List ZArith Lia Bool.
Import ListNotations.
Local Open Scope Z_scope.

Set Implicit Arguments.

(** ** Go built-ins on slices *)

Definition len {A : Type} (s : list A) : Z := Z.of_nat (length s).

(** [s[lo:]] *)
Definition slice_from {A : Type} (s : list A) (lo : Z) : list A :=
  skipn (Z.to_nat lo) s.

(** [s[lo:hi]] *)
Definition slice {A : Type} (s : list A) (lo hi : Z) : list A :=
  firstn (Z.to_nat (hi - lo)) (skipn (Z.to_nat lo) s).

(** A Go string literal as bytes. *)
Definition bytes_of (s : string) : list byte := list_byte_of_string s.
Arguments bytes_of s%_string.

Definition CR : byte := x0d.
Definition LF : byte := x0a.

(** ** State passing

    Code that reads or writes memory is written in a state monad: the
    callbacks over the connection they are given (its context and the
    input stream the context points to), the framing function over the
    memory it can reach. *)

Definition State (S A : Type) : Type := S -> A * S.

Definition ret {S A : Type} (a : A) : State S A := fun s => (a, s).

Definition bind {S A B : Type} (m : State S A) (k : A -> State S B)
  : State S B :=
  fun s => let '(a, s') := m s in k a s'.

Definition gets {S A : Type} (f : S -> A) : State S A := fun s => (f s, s).

Declare Scope state_scope.
Delimit Scope state_scope with state.
Notation "x <- m ;; k" := (bind m (fun x => k))
  (at level 61, m at next level, right associativity) : state_scope.
Notation "m ;;; k" := (bind m (fun _ => k))
  (at level 61, right associativity) : state_scope.

(** ** Package [bytes] of the Go library *)
Module Bytes.

(** [bytes.HasPrefix(data, sep)] *)
Fixpoint HasPrefix (data sep : list byte) {struct sep} : bool :=
  match sep, data with
  | [], _ => true
  | _ :: _, [] => false
  | c :: sep', d :: data' => Byte.eqb d c && HasPrefix data' sep'
  end.

Fixpoint index_from (data sep : list byte) (i : Z) : Z :=
  match data with
  | [] => if HasPrefix [] sep then i else -1
  | _ :: rest => if HasPrefix data sep then i else index_from rest sep (i + 1)
  end.

(** [bytes.Index(data, sep)]: the index of the first instance of [sep]
    in [data], or -1 if [sep] is not present in [data]. *)
Definition Index (data sep : list byte) : Z := index_from data sep 0.

End Bytes.

(** ** Package [strconv] of the Go library *)
Module Strconv.

Inductive NumError : Type := ErrSyntax | ErrRange.

Definition maxUint64 : Z := 2 ^ 64 - 1.

(** The digit loop of [strconv.ParseUint(s, 10, 64)]: [n] is the
    [uint64] accumulator; the sum [n*10 + d] wraps around modulo 2^64
    and the wrap is detected as in the library. *)
Fixpoint parse_digits (s : list byte) (n : Z) : Z * option NumError :=
  match s with
  | [] => (n, None)
  | c :: s' =>
      let c := Z.of_N (Byte.to_N c) in
      if (48 <=? c) && (c <=? 57) then
        let d := c - 48 in
        if n >=? maxUint64 / 10 + 1 then (maxUint64, Some ErrRange)
        else
          let n := n * 10 in
          let n1 := (n + d) mod 2 ^ 64 in
          if (n1 <? n) || (n1 >? maxUint64) then (maxUint64, Some ErrRange)
          else parse_digits s' n1
      else (0, Some ErrSyntax)
  end.

(** [strconv.ParseUint(s, 10, 64)] *)
Definition ParseUint (s : list byte) : Z * option NumError :=
  match s with
  | [] => (0, Some ErrSyntax)
  | _ => parse_digits s 0
  end.

(** [strconv.ParseInt(s, 10, 64)] *)
Definition ParseInt (s : list byte) : Z * option NumError :=
  match s with
  | [] => (0, Some ErrSyntax)
  | c :: s' =>
      let neg := Byte.eqb c x2d in
      let s := if Byte.eqb c x2b || Byte.eqb c x2d then s' else s in
      let '(un, err) := ParseUint s in
      match err with
      | Some ErrSyntax => (0, Some ErrSyntax)
      | _ =>
          let cutoff := 2 ^ 63 in
          if negb neg && (un >=? cutoff) then (cutoff - 1, Some ErrRange)
          else if neg && (un >? cutoff) then (- cutoff, Some ErrRange)
          else (if neg then - un else un, None)
      end
  end.

End Strconv.

(** The errors a framing function can return: the package's own
    [errBadRequest], or the [*strconv.NumError] of [ParseInt]. *)
Inductive error : Type :=
| errBadRequest
| errNum (e : Strconv.NumError).

(** ** [internal/http/parser.go] *)
Module Http.

Definition crlf : list byte := [CR; LF].
Definition headerTerminator : list byte := crlf ++ crlf.
Definition contentLengthHeader : list byte := bytes_of "Content-Length: ".
Definition contentLengthHeaderLength : Z := len contentLengthHeader.

Definition IsRequestComplete (data : list byte) : bool * option error :=
  let htIdx := Bytes.Index data headerTerminator in
  if htIdx <? 0 then (false, None)
  else
    let htEndIdx := htIdx + 4 in
    let clIdx := Bytes.Index data contentLengthHeader in
    if clIdx <? 0 then
      if htEndIdx =? len data then (true, None)
      else (false, Some errBadRequest)
    else
      let clEndIdx := Bytes.Index (slice_from data clIdx) crlf in
      if clEndIdx <? 0 then (false, Some errBadRequest)
      else
        let clEndIdx := clEndIdx + clIdx in
        if htEndIdx >=? len data then (false, None)
        else
          let clenbytes :=
            slice data (clIdx + contentLengthHeaderLength) clEndIdx in
          let '(clen, err) := Strconv.ParseInt clenbytes in
          match err with
          | Some e => (false, Some (errNum e))
          | None =>
              (* [int(clen)] is the identity: [int] is 64 bits wide *)
              if len data - htEndIdx <? clen then (false, None)
              else (true, None)
          end.

(** *** The framing function and the memory it can reach

    The package-level variables are ordinary variables of the Go
    program, and [data] is a view of an array that the caller owns.
    [IsRequestComplete_st] is the function again, with every access to
    that memory made explicit. *)
Record Globals : Type := {
  v_crlf : list byte;
  v_headerTerminator : list byte;
  v_contentLengthHeader : list byte;
  v_contentLengthHeaderLength : Z
}.

Record Memory : Type := {
  globals : Globals;
  array : list byte  (* the bytes [data] views *)
}.

(** The package variables after initialisation. *)
Definition initGlobals : Globals :=
  {| v_crlf := crlf;
     v_headerTerminator := headerTerminator;
     v_contentLengthHeader := contentLengthHeader;
     v_contentLengthHeaderLength := contentLengthHeaderLength |}.

Definition load {A : Type} (v : Globals -> A) : State Memory A :=
  gets (fun m => v (globals m)).

Definition IsRequestComplete_st : State Memory (bool * option error) :=
  (data <- gets array ;;
   headerTerminator <- load v_headerTerminator ;;
   let htIdx := Bytes.Index data headerTerminator in
   if htIdx <? 0 then ret (false, None)
   else
     let htEndIdx := htIdx + 4 in
     contentLengthHeader <- load v_contentLengthHeader ;;
     let clIdx := Bytes.Index data contentLengthHeader in
     if clIdx <? 0 then
       if htEndIdx =? len data then ret (true, None)
       else ret (false, Some errBadRequest)
     else
       crlf <- load v_crlf ;;
       let clEndIdx := Bytes.Index (slice_from data clIdx) crlf in
       if clEndIdx <? 0 then ret (false, Some errBadRequest)
       else
         let clEndIdx := clEndIdx + clIdx in
         if htEndIdx >=? len data then ret (false, None)
         else
           contentLengthHeaderLength <- load v_contentLengthHeaderLength ;;
           let clenbytes :=
             slice data (clIdx + contentLengthHeaderLength) clEndIdx in
           let '(clen, err) := Strconv.ParseInt clenbytes in
           match err with
           | Some e => ret (false, Some (errNum e))
           | None =>
               if len data - htEndIdx <? clen then ret (false, None)
               else ret (true, None)
           end)%state.

(** *** The hand-written length parser

    [parseContentLength] and its two digit lookups.  A call either
    returns or panics (an index out of range). *)
Inductive outcome (A : Type) : Type :=
| Returns (a : A)
| Panics.
Arguments Panics {A}.

(** Arithmetic on [int64] wraps around. *)
Definition wrap64 (z : Z) : Z := (z + 2 ^ 63) mod 2 ^ 64 - 2 ^ 63.

(** [byteToIntSlice]: a slice literal with the keys '0' to '9'; its
    length is '9' + 1 and the elements below '0' are zero. *)
Definition byteToIntSlice : list Z :=
  repeat 0 48 ++ [0; 1; 2; 3; 4; 5; 6; 7; 8; 9].

Definition byteToIntJump (b : byte) : Z :=
  if Byte.eqb b x30 then 0
  else if Byte.eqb b x31 then 1
  else if Byte.eqb b x32 then 2
  else if Byte.eqb b x33 then 3
  else if Byte.eqb b x34 then 4
  else if Byte.eqb b x35 then 5
  else if Byte.eqb b x36 then 6
  else if Byte.eqb b x37 then 7
  else if Byte.eqb b x38 then 8
  else if Byte.eqb b x39 then 9
  else -1.

Section ParseContentLength.

(** [int64(math.Pow10(n))] for [n] above 18: the power of ten is beyond
    the range of [int64], and what the conversion gives then depends on
    the implementation. *)
Variable pow10_beyond_int64 : Z -> Z.

(** [int64(math.Pow10(n))]: up to 18 the power of ten is an integer
    that [float64] holds exactly and that fits [int64]. *)
Definition Pow10_int64 (n : Z) : Z :=
  if n <=? 18 then 10 ^ n else pow10_beyond_int64 n.

(** The loop of [parseContentLength], from index [i] on: [rest] is
    [clen[i:]]. *)
Fixpoint parseContentLength_loop (rest : list byte) (zeroes length : Z)
  : outcome (Z * option error) :=
  match rest with
  | [] => Returns (length, None)
  | c :: rest' =>
      let c := Z.of_N (Byte.to_N c) in
      if (c <? 48) || (c >? 57) then Returns (-1, Some errBadRequest)
      else
        match nth_error byteToIntSlice (Z.to_nat c) with
        | None => Panics
        | Some v =>
            if v <? 0 then Returns (-1, Some errBadRequest)
            else
              let length :=
                if zeroes =? 0 then wrap64 (length + v)
                else wrap64 (length + wrap64 (v * Pow10_int64 zeroes)) in
              parseContentLength_loop rest' (zeroes - 1) length
        end
  end.

Definition parseContentLength (clen : list byte)
  : outcome (Z * option error) :=
  match clen with
  | [] => Panics
  | c0 :: _ =>
      let c0 := Z.of_N (Byte.to_N c0) in
      if (c0 <? 48) || (c0 >? 57) then Returns (-1, Some errBadRequest)
      else parseContentLength_loop clen (len clen - 1) 0
  end.

End ParseContentLength.

End Http.

(** ** The reactor libraries, as far as the callbacks use them *)

Module EvioLib.

(** Modelled from the spec: [evio.InputStream] of the reactor library
    (github.com/tidwall/evio), which is not part of the repository.
    [Begin] appends the new bytes to the stream's buffer and returns
    the full accumulated view; [End] replaces the stored buffer with
    the remainder it is given. *)
Record InputStream : Type := { b : list byte }.

(** Modelled from the spec: [Begin] of [evio.InputStream], the [begin]
    of the design document. *)
Definition Begin (packet : list byte) : State InputStream (list byte) :=
  fun st => (b st ++ packet, {| b := b st ++ packet |}).

(** Modelled from the spec: [End] of [evio.InputStream], the [end] of
    the design document. *)
Definition End (data : list byte) : State InputStream unit :=
  fun _ => (tt, {| b := data |}).

(** [&evio.InputStream{}] *)
Definition emptyStream : InputStream := {| b := [] |}.

Inductive Action : Type := None | Detach | Close | Shutdown.

(** An [evio.Conn]: the callbacks use only its context, which always
    holds the [*evio.InputStream] that [Opened] stored. *)
Record Conn : Type := { Context : InputStream }.

Definition SetContext (st : InputStream) : State Conn unit :=
  fun _ => (tt, {| Context := st |}).

(** A method call through the pointer held in the context. *)
Definition onStream {A : Type} (m : State InputStream A) : State Conn A :=
  fun c => let '(a, st) := m (Context c) in (a, {| Context := st |}).

End EvioLib.

Module GnetLib.

Inductive Action : Type := None | Close | Shutdown.

(** A [gnet.Conn]; its context holds an [*evio.InputStream] too. *)
Record Conn : Type := { Context : EvioLib.InputStream }.

Definition SetContext (st : EvioLib.InputStream) : State Conn unit :=
  fun _ => (tt, {| Context := st |}).

Definition onStream {A : Type} (m : State EvioLib.InputStream A)
  : State Conn A :=
  fun c => let '(a, st) := m (Context c) in (a, {| Context := st |}).

End GnetLib.

(** [context.Context], as the callbacks observe it: whether the [Done]
    channel is closed. *)
Module context.
Record Context : Type := { Done : bool }.
End context.

(** ** [internal/evio/handler.go] *)
Module Evio.

Definition crlf : list byte := [CR; LF].
Definition headerTerminator : list byte := crlf ++ crlf.
Definition contentLengthHeader : list byte := bytes_of "Content-Length: ".
Definition contentLengthHeaderLength : Z := len contentLengthHeader.

Definition isRequestComplete (data : list byte) : bool * option error :=
  let htIdx := Bytes.Index data headerTerminator in
  if htIdx <? 0 then (false, None)
  else
    let htEndIdx := htIdx + 4 in
    let clIdx := Bytes.Index data contentLengthHeader in
    if clIdx <? 0 then
      if htEndIdx =? len data then (true, None)
      else (false, Some errBadRequest)
    else
      let clEndIdx := Bytes.Index (slice_from data clIdx) crlf in
      if clEndIdx <? 0 then (false, Some errBadRequest)
      else
        let clEndIdx := clEndIdx + clIdx in
        if htEndIdx >=? len data then (false, None)
        else
          let clenbytes :=
            slice data (clIdx + contentLengthHeaderLength) clEndIdx in
          let '(clen, err) := Strconv.ParseInt clenbytes in
          match err with
          | Some e => (false, Some (errNum e))
          | None =>
              if len data - htEndIdx <? clen then (false, None)
              else (true, None)
          end.

(** [http.Response], with the fields [Data] sets. *)
Record Response : Type := {
  StatusCode : Z;
  ProtoMajor : Z;
  ProtoMinor : Z;
  ContentLength : Z;
  Close : bool;
  Body : list byte
}.

Section Handler.

Local Open Scope state_scope.

(** The handler closes over the context given to [NewHandler]. *)
Variable ctx : context.Context.

(** [net/http] and the package's helpers, which are not part of the
    framing core: [http.ReadRequest] over the bytes, [readall] of the
    request body and the [Write] method of [http.Response];
    [None] is a non-nil error. *)
Variable Request : Type.
Variable ReadRequest : list byte -> option Request.
Variable readall : Request -> option (list byte).
Variable Write : Response -> option (list byte).

Definition Serving : EvioLib.Action :=
  if context.Done ctx then EvioLib.Shutdown else EvioLib.None.

Definition Opened
  : State EvioLib.Conn (option (list byte) * EvioLib.Action) :=
  EvioLib.SetContext EvioLib.emptyStream ;;;
  if context.Done ctx then ret (None, EvioLib.Close)
  else ret (None, EvioLib.None).

Definition Closed : EvioLib.Action :=
  if context.Done ctx then EvioLib.Shutdown else EvioLib.None.

Definition Data (in_ : list byte)
  : State EvioLib.Conn (option (list byte) * EvioLib.Action) :=
  if len in_ =? 0 then ret (None, EvioLib.None)
  else
    data <- EvioLib.onStream (EvioLib.Begin in_) ;;
    let '(complete, err) := isRequestComplete data in
    match err with
    | Some _ => ret (None, EvioLib.Close)
    | None =>
        EvioLib.onStream (EvioLib.End data) ;;;
        if negb complete then ret (None, EvioLib.None)
        else
          match ReadRequest data with
          | None => ret (None, EvioLib.Close)
          | Some req =>
              match readall req with
              | None => ret (None, EvioLib.Close)
              | Some body =>
                  let res := {| StatusCode := 200;
                                ProtoMajor := 1;
                                ProtoMinor := 1;
                                ContentLength := len body;
                                Close := false;
                                Body := body |} in
                  match Write res with
                  | None => ret (None, EvioLib.Close)
                  | Some buf =>
                      if context.Done ctx then ret (None, EvioLib.Close)
                      else
                        EvioLib.SetContext EvioLib.emptyStream ;;;
                        ret (Some buf, EvioLib.None)
                  end
              end
          end
    end.

Definition Tick : EvioLib.Action :=
  if context.Done ctx then EvioLib.Shutdown else EvioLib.None.

End Handler.

End Evio.

(** ** [internal/loop/gnet/engine.go] *)
Module Gnet.

Section Engine.

Local Open Scope state_scope.

(** [net/http] and the response writer of [internal/http], which are
    not part of the framing core: [http.ReadRequest] over the bytes,
    [NewResponseWriter] and its [WriteToBuf]; [None] is a non-nil
    error. *)
Variable Request : Type.
Variable ResponseWriter : Type.
Variable ReadRequest : list byte -> option Request.
Variable NewResponseWriter : ResponseWriter.
Variable WriteToBuf : ResponseWriter -> option (list byte).

(** The [http.Handler] interface; the handler writes into the
    response writer it is given. *)
Class Handler : Type :=
  { ServeHTTP : ResponseWriter -> Request -> ResponseWriter }.

Record Engine : Type := {
  ctx : context.Context;
  httpHandler : Handler;
  binding : string;
  loops : Z;
  port : Z
}.

Definition NewEngine (ctx : context.Context) (loops port : Z)
    (httpHandler : Handler) : Engine :=
  {| ctx := ctx; httpHandler := httpHandler;
     binding := EmptyString; loops := loops; port := port |}.

Definition OnInitComplete (e : Engine) : GnetLib.Action :=
  if context.Done (ctx e) then GnetLib.Shutdown else GnetLib.None.

Definition OnOpened (e : Engine)
  : State GnetLib.Conn (option (list byte) * GnetLib.Action) :=
  GnetLib.SetContext EvioLib.emptyStream ;;;
  if context.Done (ctx e) then ret (None, GnetLib.Close)
  else ret (None, GnetLib.None).

Definition OnClosed (e : Engine) : GnetLib.Action :=
  if context.Done (ctx e) then GnetLib.Shutdown else GnetLib.None.

Definition React (e : Engine) (in_ : list byte)
  : State GnetLib.Conn (option (list byte) * GnetLib.Action) :=
  if len in_ =? 0 then ret (None, GnetLib.None)
  else
    data <- GnetLib.onStream (EvioLib.Begin in_) ;;
    let '(complete, err) := Http.IsRequestComplete data in
    match err with
    | Some _ => ret (None, GnetLib.Close)
    | None =>
        GnetLib.onStream (EvioLib.End data) ;;;
        if negb complete then ret (None, GnetLib.None)
        else
          match ReadRequest data with
          | None => ret (None, GnetLib.Close)
          | Some req =>
              let res :=
                @ServeHTTP (httpHandler e) NewResponseWriter req in
              match WriteToBuf res with
              | None => ret (None, GnetLib.Close)
              | Some buf =>
                  if context.Done (ctx e) then ret (Some buf, GnetLib.Close)
                  else
                    GnetLib.SetContext EvioLib.emptyStream ;;;
                    ret (Some buf, GnetLib.None)
              end
          end
    end.

Definition Tick (e : Engine) : GnetLib.Action :=
  if context.Done (ctx e) then GnetLib.Shutdown else GnetLib.None.

End Engine.

End Gnet.

(** ** The vocabulary of the design document *)

(** The framing verdict: how a caller reads the [(bool, error)] result.
    A non-nil error is MALFORMED whatever the boolean is; otherwise the
    boolean tells COMPLETE from INCOMPLETE. *)
Inductive Verdict : Type := INCOMPLETE | COMPLETE | MALFORMED.

Definition verdict (r : bool * option error) : Verdict :=
  match r with
  | (_, Some _) => MALFORMED
  | (true, None) => COMPLETE
  | (false, None) => INCOMPLETE
  end.

(** [evaluate] of the design document, on the gnet backend's framer. *)
Definition evaluate (buffer : list byte) : Verdict :=
  verdict (Http.IsRequestComplete buffer).

(** [sep] occurs in [data], byte for byte. *)
Definition occurs (sep data : list byte) : Prop :=
  exists pre post, data = pre ++ sep ++ post.

(** [sep] is found in [data] at [n] and nowhere before. *)
Definition first_at (sep data : list byte) (n : nat) : Prop :=
  (n <= length data)%nat /\
  Bytes.HasPrefix (skipn n data) sep = true /\
  forall j, (j < n)%nat -> Bytes.HasPrefix (skipn j data) sep = false.

(** [sep] is found nowhere in [data]. *)
Definition absent (sep data : list byte) : Prop :=
  forall j, (j <= length data)%nat ->
    Bytes.HasPrefix (skipn j data) sep = false.

(** [headerEnd] of the design document: the index just past the first
    header terminator (meaningful when there is one). *)
Definition headerEnd (buffer : list byte) : Z :=
  Bytes.Index buffer Http.headerTerminator + 4.

(** The bytes of the Content-Length line after the token, up to the next
    line break, as the framer slices them. *)
Definition length_value (buffer : list byte) : list byte :=
  let clIdx := Bytes.Index buffer Http.contentLengthHeader in
  let clEndIdx := Bytes.Index (slice_from buffer clIdx) Http.crlf + clIdx in
  slice buffer (clIdx + Http.contentLengthHeaderLength) clEndIdx.

(** The Content-Length line of the buffer has its line break. *)
Definition length_line_ends (buffer : list byte) : Prop :=
  0 <= Bytes.Index
         (slice_from buffer (Bytes.Index buffer Http.contentLengthHeader))
         Http.crlf.

(** A decimal digit. *)
Definition is_digit (c : byte) : bool :=
  (48 <=? Z.of_N (Byte.to_N c)) && (Z.of_N (Byte.to_N c) <=? 57).

(** The number a string of decimal digits denotes. *)
Definition digit_value (c : byte) : Z := Z.of_N (Byte.to_N c) - 48.

Definition decimal (s : list byte) : Z :=
  fold_left (fun acc c => acc * 10 + digit_value c) s 0.

(** The gnet action as the evio backend names it. *)
Definition toEvio (a : GnetLib.Action) : EvioLib.Action :=
  match a with
  | GnetLib.None => EvioLib.None
  | GnetLib.Close => EvioLib.Close
  | GnetLib.Shutdown => EvioLib.Shutdown
  end.

(** A well-formed request, as far as framing is concerned: the header
    section ends with the first header terminator of the sequence; if no
    Content-Length token occurs the request ends there (no body);
    otherwise the token occurs in the header section, its value is a
    non-negative integer [n], and exactly [n] body bytes follow the
    terminator. *)
Definition well_formed (req : list byte) : bool :=
  let htIdx := Bytes.Index req Http.headerTerminator in
  (0 <=? htIdx) &&
  let clIdx := Bytes.Index req Http.contentLengthHeader in
  if clIdx <? 0 then len req =? htIdx + 4
  else
    (clIdx <? htIdx) &&
    match Strconv.ParseInt (length_value req) with
    | (n, None) => (0 <=? n) && (len req =? htIdx + 4 + n)
    | (_, Some _) => false
    end.

(** The Content-Length a buffer declares: the value after the first
    occurrence of the token, when there is one and it parses. *)
Definition declared_length (req : list byte) : option Z :=
  let clIdx := Bytes.Index req Http.contentLengthHeader in
  if clIdx <? 0 then None
  else
    match Strconv.ParseInt (length_value req) with
    | (n, None) => Some n
    | (_, Some _) => None
    end.

(** ** Running the callbacks *)

(** A stand-in for the collaborators, to run the callbacks on concrete
    inputs: the decoded request is the framed bytes themselves, the
    handler echoes them, and serialization never fails. *)
Module Echo.

Definition ReadRequest (data : list byte) : option (list byte) := Some data.

Definition readall (req : list byte) : option (list byte) := Some req.

Definition Write (res : Evio.Response) : option (list byte) :=
  Some (bytes_of "HTTP/1.1 200 OK" ++ Evio.headerTerminator ++ Evio.Body res).

Definition NewResponseWriter : list byte := [].

Definition WriteToBuf (res : list byte) : option (list byte) :=
  Some (bytes_of "HTTP/1.1 200 OK" ++ Http.headerTerminator ++ res).

#[local] Instance handler : Gnet.Handler (list byte) (list byte) :=
  {| Gnet.ServeHTTP := fun _ req => req |}.

Definition engine (done : bool) : Gnet.Engine (list byte) (list byte) :=
  Gnet.NewEngine {| context.Done := done |} 1 8080 handler.

(** The gnet readable callback of the echo server. *)
Definition React (done : bool) (in_ : list byte)
  : State GnetLib.Conn (option (list byte) * GnetLib.Action) :=
  Gnet.React ReadRequest NewResponseWriter WriteToBuf (engine done) in_.

(** The evio readable callback of the echo server. *)
Definition Data (done : bool) (in_ : list byte)
  : State EvioLib.Conn (option (list byte) * EvioLib.Action) :=
  Evio.Data {| context.Done := done |} ReadRequest readall Write in_.

End Echo.

(** A connection as [OnOpened] leaves it. *)
Definition gnetOpened : GnetLib.Conn :=
  {| GnetLib.Context := EvioLib.emptyStream |}.

Definition evioOpened : EvioLib.Conn :=
  {| EvioLib.Context := EvioLib.emptyStream |}.

(** The connection whose stream holds [data]. *)
Definition gnetHolding (data : list byte) : GnetLib.Conn :=
  {| GnetLib.Context := {| EvioLib.b := data |} |}.

Definition evioHolding (data : list byte) : EvioLib.Conn :=
  {| EvioLib.Context := {| EvioLib.b := data |} |}.

Section Chunks.

Variables Request ResponseWriter : Type.
Variable ReadRequest : list byte -> option Request.
Variable NewResponseWriter : ResponseWriter.
Variable WriteToBuf : ResponseWriter -> option (list byte).
Variable e : Gnet.Engine Request ResponseWriter.

(** The readable callback, once per delivered chunk, in order; the
    results of the calls are collected. *)
Fixpoint deliver (chunks : list (list byte))
  : State GnetLib.Conn (list (option (list byte) * GnetLib.Action)) :=
  match chunks with
  | [] => ret []
  | in_ :: rest =>
      (r <- Gnet.React ReadRequest NewResponseWriter WriteToBuf e in_ ;;
       rs <- deliver rest ;;
       ret (r :: rs))%state
  end.

End Chunks.

(** ** Sample inputs *)
Module Sample.

Definition get : list byte :=
  bytes_of "GET / HTTP/1.1" ++ Http.crlf ++ bytes_of "Host: x"
    ++ Http.headerTerminator.

(** A request line and one header line [header], then the terminator
    and [body]. *)
Definition post (header body : string) : list byte :=
  bytes_of "POST / HTTP/1.1" ++ Http.crlf ++ bytes_of header
    ++ Http.headerTerminator ++ bytes_of body.

(** No header at all: the terminator follows the request line. *)
Definition bare (body : list byte) : list byte :=
  bytes_of "POST / HTTP/1.1" ++ Http.headerTerminator ++ body.

(** A request with a two-byte body and the next request, as one read
    delivers them. *)
Definition pipelined : list byte := post "Content-Length: 2" "hi" ++ get.

(** A request with one header and no Content-Length header, whose body
    is text that mentions the token. *)
Definition note : list byte :=
  post "Host: x" "note=Content-Length: 2" ++ Http.crlf ++ bytes_of "ab".

(** A request whose only length header is spelled in lower case and
    declares the 22 bytes of its body, which starts with the token. *)
Definition lower_case : list byte :=
  post "content-length: 22" "Content-Length: 1" ++ Http.crlf
    ++ bytes_of "abc".

End Sample.

(** * Properties *)

(** ** Slices and lengths *)

Lemma len_nonneg {A : Type} (s : list A) : 0 <= len s.
Proof. unfold len. lia. Qed.

Lemma len_app {A : Type} (s t : list A) : len (s ++ t) = len s + len t.
Proof. unfold len. rewrite length_app. lia. Qed.

Lemma len_nil_iff {A : Type} (s : list A) : len s = 0 <-> s = [].
Proof.
  unfold len. split.
  - destruct s; [reflexivity | simpl; lia].
  - intros ->. reflexivity.
Qed.

Lemma skipn_app_le {A : Type} (n : nat) (s t : list A) :
  (n <= length s)%nat -> skipn n (s ++ t) = skipn n s ++ t.
Proof.
  intros H. rewrite skipn_app.
  replace (n - length s)%nat with 0%nat by lia. reflexivity.
Qed.

Lemma firstn_app_le {A : Type} (n : nat) (s t : list A) :
  (n <= length s)%nat -> firstn n (s ++ t) = firstn n s.
Proof.
  intros H. rewrite firstn_app.
  replace (n - length s)%nat with 0%nat by lia.
  simpl. apply app_nil_r.
Qed.

Lemma slice_from_app {A : Type} (s t : list A) (lo : Z) :
  lo <= len s -> slice_from (s ++ t) lo = slice_from s lo ++ t.
Proof.
  unfold slice_from, len. intros H. apply skipn_app_le. lia.
Qed.

Lemma slice_app {A : Type} (s t : list A) (lo hi : Z) :
  0 <= lo -> hi <= len s -> slice (s ++ t) lo hi = slice s lo hi.
Proof.
  unfold slice, len. intros H0 H.
  destruct (Z_le_gt_dec lo (Z.of_nat (length s))) as [Hlo | Hlo].
  - rewrite skipn_app_le by lia. apply firstn_app_le.
    rewrite length_skipn. lia.
  - replace (Z.to_nat (hi - lo)) with 0%nat by lia. reflexivity.
Qed.

(** ** [bytes.HasPrefix] and [bytes.Index] *)

Lemma HasPrefix_iff (data sep : list byte) :
  Bytes.HasPrefix data sep = true <-> exists rest, data = sep ++ rest.
Proof.
  revert data. induction sep as [| c sep IH]; intros data; simpl.
  - split; [intros _; exists data; reflexivity | reflexivity].
  - destruct data as [| d data].
    + split; [discriminate | intros [rest H]; discriminate].
    + rewrite andb_true_iff, IH. split.
      * intros [Hc [rest ->]]. apply Byte.byte_dec_bl in Hc. subst d.
        exists rest. reflexivity.
      * intros [rest H]. injection H as -> ->. split.
        -- apply Byte.byte_dec_lb. reflexivity.
        -- exists rest. reflexivity.
Qed.

Lemma HasPrefix_length (data sep : list byte) :
  Bytes.HasPrefix data sep = true -> (length sep <= length data)%nat.
Proof.
  intros H. apply HasPrefix_iff in H. destruct H as [rest ->].
  rewrite length_app. lia.
Qed.

Lemma HasPrefix_short (data sep : list byte) :
  (length data < length sep)%nat -> Bytes.HasPrefix data sep = false.
Proof.
  intros H. destruct (Bytes.HasPrefix data sep) eqn:E; [| reflexivity].
  apply HasPrefix_length in E. lia.
Qed.

Lemma HasPrefix_app_l (data more sep : list byte) :
  (length sep <= length data)%nat ->
  Bytes.HasPrefix (data ++ more) sep = Bytes.HasPrefix data sep.
Proof.
  revert data. induction sep as [| c sep IH]; intros data H.
  - reflexivity.
  - destruct data as [| d data]; simpl in *; [lia |].
    rewrite IH by lia. reflexivity.
Qed.

Lemma index_from_cases (data sep : list byte) (k : Z) :
  (Bytes.index_from data sep k = -1 /\ absent sep data) \/
  (exists n, Bytes.index_from data sep k = k + Z.of_nat n /\
             first_at sep data n).
Proof.
  revert k. induction data as [| d data IH]; intros k.
  - simpl. destruct (Bytes.HasPrefix [] sep) eqn:E.
    + right. exists 0%nat. split; [lia |].
      split; [simpl; lia |]. split; [exact E | intros j Hj; lia].
    + left. split; [reflexivity |].
      intros j _. rewrite skipn_nil. exact E.
  - cbn [Bytes.index_from]. destruct (Bytes.HasPrefix (d :: data) sep) eqn:E.
    + right. exists 0%nat. split; [lia |].
      split; [simpl; lia |]. split; [exact E | intros j Hj; lia].
    + destruct (IH (k + 1)) as [[Hi Ha] | [n [Hi [Hn [Hp Hb]]]]].
      * left. split; [exact Hi |].
        intros [| j] Hj; [exact E |]. simpl in *. apply Ha. lia.
      * right. exists (S n). split; [rewrite Hi; lia |].
        split; [simpl; lia |]. split; [exact Hp |].
        intros [| j] Hj; [exact E |]. simpl. apply Hb. lia.
Qed.

Lemma Index_cases (data sep : list byte) :
  (Bytes.Index data sep = -1 /\ absent sep data) \/
  (exists n, Bytes.Index data sep = Z.of_nat n /\ first_at sep data n).
Proof.
  unfold Bytes.Index.
  destruct (index_from_cases data sep 0) as [H | [n [H1 H2]]].
  - left. exact H.
  - right. exists n. split; [rewrite H1; lia | exact H2].
Qed.

Lemma first_at_not_absent (sep data : list byte) (n : nat) :
  first_at sep data n -> absent sep data -> False.
Proof.
  intros [Hn [Hp _]] Ha. rewrite (Ha n Hn) in Hp. discriminate.
Qed.

Lemma first_at_unique (sep data : list byte) (n m : nat) :
  first_at sep data n -> first_at sep data m -> n = m.
Proof.
  intros [_ [Hn Hbn]] [_ [Hm Hbm]].
  destruct (Nat.lt_trichotomy n m) as [H | [H | H]]; [| exact H |].
  - rewrite (Hbm n H) in Hn. discriminate.
  - rewrite (Hbn m H) in Hm. discriminate.
Qed.

Lemma Index_first_at (sep data : list byte) (n : nat) :
  first_at sep data n -> Bytes.Index data sep = Z.of_nat n.
Proof.
  intros H. destruct (Index_cases data sep) as [[_ Ha] | [m [Hi Hm]]].
  - destruct (first_at_not_absent H Ha).
  - rewrite Hi, (first_at_unique H Hm). reflexivity.
Qed.

Lemma Index_absent (sep data : list byte) :
  absent sep data -> Bytes.Index data sep = -1.
Proof.
  intros Ha. destruct (Index_cases data sep) as [[Hi _] | [m [_ Hm]]].
  - exact Hi.
  - destruct (first_at_not_absent Hm Ha).
Qed.

Lemma Index_found (data sep : list byte) :
  0 <= Bytes.Index data sep ->
  first_at sep data (Z.to_nat (Bytes.Index data sep)).
Proof.
  intros H. destruct (Index_cases data sep) as [[Hi _] | [m [Hi Hm]]].
  - lia.
  - rewrite Hi, Nat2Z.id. exact Hm.
Qed.

Lemma Index_missing (data sep : list byte) :
  Bytes.Index data sep < 0 ->
  Bytes.Index data sep = -1 /\ absent sep data.
Proof.
  intros H. destruct (Index_cases data sep) as [Hi | [m [Hi _]]].
  - exact Hi.
  - lia.
Qed.

Lemma Index_bounds (data sep : list byte) :
  0 <= Bytes.Index data sep ->
  Bytes.Index data sep + len sep <= len data.
Proof.
  intros H. destruct (Index_found _ _ H) as [Hn [Hp _]].
  apply HasPrefix_length in Hp. rewrite length_skipn in Hp.
  unfold len. lia.
Qed.

Lemma Index_ge_m1 (data sep : list byte) : -1 <= Bytes.Index data sep.
Proof.
  destruct (Index_cases data sep) as [[Hi _] | [m [Hi _]]]; lia.
Qed.

(** [bytes.Index] finds [sep] exactly when it occurs, byte for byte. *)
Lemma Index_occurs (data sep : list byte) :
  0 <= Bytes.Index data sep <-> occurs sep data.
Proof.
  split.
  - intros H. destruct (Index_found _ _ H) as [_ [Hp _]].
    apply HasPrefix_iff in Hp. destruct Hp as [rest Hp].
    exists (firstn (Z.to_nat (Bytes.Index data sep)) data), rest.
    rewrite <- Hp. symmetry. apply firstn_skipn.
  - intros [pre [post ->]].
    destruct (Index_cases (pre ++ sep ++ post) sep) as [[_ Ha] | [m [Hi _]]];
      [| lia].
    specialize (Ha (length pre)). rewrite length_app in Ha.
    rewrite skipn_app_le, skipn_all in Ha by lia. simpl in Ha.
    assert (E : Bytes.HasPrefix (sep ++ post) sep = true)
      by (apply HasPrefix_iff; exists post; reflexivity).
    rewrite Ha in E by lia. discriminate.
Qed.

Lemma first_at_app (sep p q : list byte) (n : nat) :
  first_at sep p n -> first_at sep (p ++ q) n.
Proof.
  intros [Hn [Hp Hb]].
  pose proof (HasPrefix_length _ _ Hp) as Hl. rewrite length_skipn in Hl.
  split; [rewrite length_app; lia |]. split.
  - rewrite skipn_app_le by lia. rewrite HasPrefix_app_l; [exact Hp |].
    rewrite length_skipn. lia.
  - intros j Hj. rewrite skipn_app_le by lia.
    rewrite HasPrefix_app_l; [apply Hb; exact Hj |].
    rewrite length_skipn. lia.
Qed.

Lemma first_at_prefix (sep p q : list byte) (n : nat) :
  first_at sep (p ++ q) n -> (n + length sep <= length p)%nat ->
  first_at sep p n.
Proof.
  intros [Hn [Hp Hb]] Hl.
  split; [lia |]. split.
  - rewrite skipn_app_le in Hp by lia.
    rewrite HasPrefix_app_l in Hp; [exact Hp |].
    rewrite length_skipn. lia.
  - intros j Hj. specialize (Hb j Hj). rewrite skipn_app_le in Hb by lia.
    rewrite HasPrefix_app_l in Hb; [exact Hb |].
    rewrite length_skipn. lia.
Qed.

Lemma absent_short_prefix (sep p q : list byte) (n : nat) :
  first_at sep (p ++ q) n -> (length p < n + length sep)%nat ->
  absent sep p.
Proof.
  intros [Hn [Hp Hb]] Hl j Hj.
  destruct (Nat.le_gt_cases (length sep) (length (skipn j p))) as [H | H].
  - rewrite length_skipn in H.
    assert (Hjn : (j < n)%nat) by lia.
    specialize (Hb j Hjn). rewrite skipn_app_le in Hb by lia.
    rewrite HasPrefix_app_l in Hb; [exact Hb |].
    rewrite length_skipn. lia.
  - apply HasPrefix_short. exact H.
Qed.

Lemma absent_prefix (sep p q : list byte) :
  absent sep (p ++ q) -> absent sep p.
Proof.
  intros Ha j Hj.
  destruct (Nat.le_gt_cases (length sep) (length (skipn j p))) as [H | H].
  - specialize (Ha j). rewrite length_app in Ha.
    rewrite skipn_app_le in Ha by lia.
    rewrite HasPrefix_app_l in Ha by exact H. apply Ha. lia.
  - apply HasPrefix_short. exact H.
Qed.

(** An occurrence found in a buffer stays the first one when more bytes
    arrive. *)
Lemma Index_app_extend (p q sep : list byte) :
  0 <= Bytes.Index p sep -> Bytes.Index (p ++ q) sep = Bytes.Index p sep.
Proof.
  intros H. pose proof (Index_found _ _ H) as Hf.
  rewrite (Index_first_at (first_at_app q Hf)). lia.
Qed.

(** A prefix that holds the whole first occurrence finds it at the same
    place. *)
Lemma Index_app_stable (p q sep : list byte) :
  0 <= Bytes.Index (p ++ q) sep ->
  Bytes.Index (p ++ q) sep + len sep <= len p ->
  Bytes.Index p sep = Bytes.Index (p ++ q) sep.
Proof.
  unfold len. intros H Hl. pose proof (Index_found _ _ H) as Hf.
  apply first_at_prefix in Hf; [| lia].
  rewrite (Index_first_at Hf). lia.
Qed.

(** A prefix that stops before the end of the first occurrence holds no
    occurrence at all. *)
Lemma Index_app_none (p q sep : list byte) :
  Bytes.Index (p ++ q) sep < 0 \/
  len p < Bytes.Index (p ++ q) sep + len sep ->
  Bytes.Index p sep = -1.
Proof.
  unfold len. intros H. apply Index_absent.
  destruct (Z_lt_ge_dec (Bytes.Index (p ++ q) sep) 0) as [Hneg | Hpos].
  - apply Index_missing in Hneg. destruct Hneg as [_ Ha].
    exact (absent_prefix _ _ Ha).
  - assert (H0 : 0 <= Bytes.Index (p ++ q) sep) by lia.
    pose proof (Index_found _ _ H0) as Hf.
    apply (absent_short_prefix _ _ Hf). lia.
Qed.

(** An occurrence at [j] bounds the first occurrence. *)
Lemma Index_le_occurrence (data sep : list byte) (j : nat) :
  (j <= length data)%nat -> Bytes.HasPrefix (skipn j data) sep = true ->
  0 <= Bytes.Index data sep <= Z.of_nat j.
Proof.
  intros Hj Hp.
  destruct (Index_cases data sep) as [[_ Ha] | [m [Hi [_ [_ Hb]]]]].
  - rewrite (Ha j Hj) in Hp. discriminate.
  - rewrite Hi. split; [lia |].
    destruct (Nat.le_gt_cases m j) as [H | H]; [lia |].
    rewrite (Hb j H) in Hp. discriminate.
Qed.

(** ** The branches of the framing function *)

Lemma IsRequestComplete_unfold (data : list byte) :
  Http.IsRequestComplete data =
  if Bytes.Index data Http.headerTerminator <? 0 then (false, None)
  else if Bytes.Index data Http.contentLengthHeader <? 0 then
    if headerEnd data =? len data then (true, None)
    else (false, Some errBadRequest)
  else if Bytes.Index
            (slice_from data (Bytes.Index data Http.contentLengthHeader))
            Http.crlf <? 0
  then (false, Some errBadRequest)
  else if headerEnd data >=? len data then (false, None)
  else
    match Strconv.ParseInt (length_value data) with
    | (_, Some e) => (false, Some (errNum e))
    | (clen, None) =>
        if len data - headerEnd data <? clen then (false, None)
        else (true, None)
    end.
Proof.
  unfold Http.IsRequestComplete, headerEnd, length_value.
  repeat match goal with
         | |- (if ?c then _ else _) = (if ?c then _ else _) =>
             destruct c; [reflexivity |]
         end.
  destruct (Strconv.ParseInt _) as [clen [e |]]; reflexivity.
Qed.

Lemma headerEnd_le_len (data : list byte) :
  0 <= Bytes.Index data Http.headerTerminator -> headerEnd data <= len data.
Proof.
  intros H. apply Index_bounds in H. unfold headerEnd.
  change (len Http.headerTerminator) with 4 in H. lia.
Qed.

Lemma no_terminator_incomplete (data : list byte) :
  Bytes.Index data Http.headerTerminator < 0 ->
  Http.IsRequestComplete data = (false, None).
Proof.
  intros H. rewrite IsRequestComplete_unfold.
  apply Z.ltb_lt in H. rewrite H. reflexivity.
Qed.

Lemma no_length_result (data : list byte) :
  0 <= Bytes.Index data Http.headerTerminator ->
  Bytes.Index data Http.contentLengthHeader < 0 ->
  Http.IsRequestComplete data =
  if headerEnd data =? len data then (true, None)
  else (false, Some errBadRequest).
Proof.
  intros Ht Hc. rewrite IsRequestComplete_unfold.
  apply Z.ltb_ge in Ht. apply Z.ltb_lt in Hc. rewrite Ht, Hc. reflexivity.
Qed.

Lemma body_not_started_incomplete (data : list byte) :
  0 <= Bytes.Index data Http.headerTerminator ->
  0 <= Bytes.Index data Http.contentLengthHeader ->
  length_line_ends data ->
  len data <= headerEnd data ->
  Http.IsRequestComplete data = (false, None).
Proof.
  unfold length_line_ends. intros Ht Hc Hl Hb.
  rewrite IsRequestComplete_unfold.
  apply Z.ltb_ge in Ht, Hc, Hl. rewrite Ht, Hc, Hl.
  apply Z.geb_le in Hb. rewrite Hb. reflexivity.
Qed.

Lemma body_started_result (data : list byte) :
  0 <= Bytes.Index data Http.headerTerminator ->
  0 <= Bytes.Index data Http.contentLengthHeader ->
  length_line_ends data ->
  headerEnd data < len data ->
  Http.IsRequestComplete data =
  match Strconv.ParseInt (length_value data) with
  | (_, Some e) => (false, Some (errNum e))
  | (clen, None) =>
      if len data - headerEnd data <? clen then (false, None)
      else (true, None)
  end.
Proof.
  unfold length_line_ends. intros Ht Hc Hl Hb.
  rewrite IsRequestComplete_unfold.
  apply Z.ltb_ge in Ht, Hc, Hl. rewrite Ht, Hc, Hl.
  destruct (headerEnd data >=? len data) eqn:E; [| reflexivity].
  apply Z.geb_le in E. lia.
Qed.

(** A value that parses was sliced from a line that has its line break:
    without the line break the slice is empty, and the empty string does
    not parse. *)
Lemma declared_length_inv (data : list byte) (n : Z) :
  declared_length data = Some n ->
  0 <= Bytes.Index data Http.contentLengthHeader /\
  length_line_ends data /\
  Strconv.ParseInt (length_value data) = (n, None).
Proof.
  unfold declared_length, length_line_ends. intros H.
  destruct (Bytes.Index data Http.contentLengthHeader <? 0) eqn:Ec;
    [discriminate |].
  apply Z.ltb_ge in Ec. split; [exact Ec |].
  destruct (Strconv.ParseInt (length_value data)) as [v [e |]] eqn:Ep;
    [discriminate |].
  injection H as ->. split; [| reflexivity].
  pose proof (Index_ge_m1
    (slice_from data (Bytes.Index data Http.contentLengthHeader))
    Http.crlf) as Hm.
  destruct (Z_lt_ge_dec
    (Bytes.Index
       (slice_from data (Bytes.Index data Http.contentLengthHeader))
       Http.crlf) 0) as [Hneg | Hpos]; [| lia].
  exfalso. unfold length_value, slice in Ep.
  change Http.contentLengthHeaderLength with 16 in Ep.
  replace (Z.to_nat _) with 0%nat in Ep by lia.
  discriminate.
Qed.

(** ** Deciding occurrences on concrete buffers *)

Lemma occurs_by_Index (sep data : list byte) :
  (0 <=? Bytes.Index data sep) = true -> occurs sep data.
Proof. intros H. apply Index_occurs, Z.leb_le, H. Qed.

Lemma not_occurs_by_Index (sep data : list byte) :
  (Bytes.Index data sep <? 0) = true -> ~ occurs sep data.
Proof.
  intros H Ho. apply Index_occurs in Ho. apply Z.ltb_lt in H. lia.
Qed.

Lemma not_occurs_Index (sep data : list byte) :
  ~ occurs sep data -> Bytes.Index data sep < 0.
Proof.
  intros H. destruct (Z_lt_ge_dec (Bytes.Index data sep) 0) as [Hn | Hp];
    [exact Hn |].
  exfalso. apply H, Index_occurs. lia.
Qed.

(** ** The framing verdicts *)

(** A buffer that contains the header terminator and in which the
    Content-Length token occurs nowhere, body included, is COMPLETE when the index just past the
    terminator equals the buffer length (a request without body is
    complete as soon as the terminator is seen), and MALFORMED when any
    byte follows the terminator. *)
Theorem no_content_length_verdict (buffer : list byte) :
  occurs Http.headerTerminator buffer ->
  ~ occurs Http.contentLengthHeader buffer ->
  (headerEnd buffer = len buffer -> evaluate buffer = COMPLETE) /\
  (headerEnd buffer < len buffer -> evaluate buffer = MALFORMED).
Proof.
  intros Ht Hc. apply Index_occurs in Ht. apply not_occurs_Index in Hc.
  unfold evaluate. rewrite (no_length_result _ Ht Hc). split; intros H.
  - apply Z.eqb_eq in H. rewrite H. reflexivity.
  - destruct (headerEnd buffer =? len buffer) eqn:E; [| reflexivity].
    apply Z.eqb_eq in E. lia.
Qed.

Lemma no_content_length_verdict_witness :
  evaluate Sample.get = COMPLETE /\
  evaluate (Sample.bare (bytes_of "hello")) = MALFORMED.
Proof.
  split.
  - apply (no_content_length_verdict (buffer := Sample.get)).
    + apply occurs_by_Index. reflexivity.
    + apply not_occurs_by_Index. reflexivity.
    + reflexivity.
  - apply (no_content_length_verdict
             (buffer := Sample.bare (bytes_of "hello"))).
    + apply occurs_by_Index. reflexivity.
    + apply not_occurs_by_Index. reflexivity.
    + vm_compute. reflexivity.
Defined.

(** C6. A request with the header terminator and no Content-Length
    header, followed by a body: the header section holds no token and
    bytes follow the terminator, so the buffer should be MALFORMED; but
    the body mentions the token, the function finds it there and judges
    the buffer COMPLETE. *)
Theorem body_without_length_header_is_framed :
  occurs Http.headerTerminator Sample.note /\
  ~ occurs Http.contentLengthHeader
      (slice Sample.note 0 (headerEnd Sample.note)) /\
  headerEnd Sample.note < len Sample.note /\
  headerEnd Sample.note
    < Bytes.Index Sample.note Http.contentLengthHeader /\
  Http.IsRequestComplete Sample.note = (true, None) /\
  evaluate Sample.note = COMPLETE /\
  evaluate Sample.note <> MALFORMED.
Proof.
  split; [apply occurs_by_Index; reflexivity |].
  split; [apply not_occurs_by_Index; reflexivity |].
  split; [vm_compute; reflexivity |].
  split; [vm_compute; reflexivity |].
  split; [reflexivity |]. split; [reflexivity |].
  vm_compute. discriminate.
Qed.

(** The Content-Length token is matched byte for byte against
    "Content-Length: ": whenever these sixteen bytes do not occur in a
    buffer that has the header terminator and a body, the buffer is
    MALFORMED with [errBadRequest], whatever other spelling of the header
    it carries.  So "content-length: 5" and "Content-Length:5" followed
    by a body are MALFORMED, where the exact spelling with the same
    value and body is framed by the declared length. *)
Theorem content_length_token_is_exact :
  (forall buffer : list byte,
      occurs Http.headerTerminator buffer ->
      ~ occurs (bytes_of "Content-Length: ") buffer ->
      headerEnd buffer < len buffer ->
      Http.IsRequestComplete buffer = (false, Some errBadRequest)) /\
  evaluate (Sample.post "content-length: 5" "hello") = MALFORMED /\
  evaluate (Sample.post "Content-Length:5" "hello") = MALFORMED /\
  evaluate (Sample.post "Content-Length: 5" "hello") = COMPLETE.
Proof.
  split; [| repeat split; reflexivity].
  intros buffer Ht Hc Hb.
  apply Index_occurs in Ht. apply not_occurs_Index in Hc.
  rewrite (no_length_result _ Ht Hc).
  destruct (headerEnd buffer =? len buffer) eqn:E; [| reflexivity].
  apply Z.eqb_eq in E. lia.
Qed.

Lemma content_length_token_is_exact_witness :
  Http.IsRequestComplete (Sample.post "content-length: 5" "hello")
  = (false, Some errBadRequest).
Proof.
  apply (proj1 content_length_token_is_exact).
  - apply occurs_by_Index. reflexivity.
  - apply not_occurs_by_Index. reflexivity.
  - vm_compute. reflexivity.
Defined.

(** C10. The match is byte for byte, so a header spelled
    "content-length: " is not the token.  A request whose only length
    header is spelled so, followed by a body, should then be MALFORMED;
    but its body starts with the exact token, the function finds it
    there, takes the 1 that follows as the declared length and judges
    the buffer COMPLETE. *)
Theorem lower_case_header_with_token_in_body_is_framed :
  occurs (bytes_of "content-length: ")
    (slice Sample.lower_case 0 (headerEnd Sample.lower_case)) /\
  ~ occurs (bytes_of "Content-Length: ")
      (slice Sample.lower_case 0 (headerEnd Sample.lower_case)) /\
  len Sample.lower_case - headerEnd Sample.lower_case = 22 /\
  Bytes.Index Sample.lower_case Http.contentLengthHeader
  = headerEnd Sample.lower_case /\
  declared_length Sample.lower_case = Some 1 /\
  Http.IsRequestComplete Sample.lower_case = (true, None) /\
  evaluate Sample.lower_case <> MALFORMED.
Proof.
  split; [apply occurs_by_Index; reflexivity |].
  split; [apply not_occurs_by_Index; reflexivity |].
  split; [reflexivity |]. split; [reflexivity |].
  split; [reflexivity |]. split; [reflexivity |].
  vm_compute. discriminate.
Qed.

(** C9. The framing function of the gnet backend and the one of the evio
    backend compute the same function: on every byte sequence they
    return the same result, hence the same completeness boolean, and
    one returns an error exactly when the other does. *)
Theorem framers_agree (b : list byte) :
  Http.IsRequestComplete b = Evio.isRequestComplete b /\
  fst (Http.IsRequestComplete b) = fst (Evio.isRequestComplete b) /\
  (snd (Http.IsRequestComplete b) = None <->
   snd (Evio.isRequestComplete b) = None).
Proof.
  assert (E : Http.IsRequestComplete b = Evio.isRequestComplete b)
    by reflexivity.
  rewrite E. split; [reflexivity |]. split; [reflexivity |].
  split; intros H; exact H.
Qed.

(** C4. The token search is not limited to the region before the header
    terminator.  On a request without any header whose body starts with
    "Content-Length: 3", the token does not occur before the terminator
    and a body follows it, yet the token is found at the first byte of
    the body and the buffer is judged complete. *)
Theorem token_in_body_counts :
  let data :=
    Sample.bare (bytes_of "Content-Length: 3" ++ Http.crlf ++ bytes_of "abc")
  in
  ~ occurs Http.contentLengthHeader
      (slice data 0 (Bytes.Index data Http.headerTerminator)) /\
  headerEnd data < len data /\
  Bytes.Index data Http.contentLengthHeader = headerEnd data /\
  Http.IsRequestComplete data = (true, None).
Proof.
  cbv zeta. split; [apply not_occurs_by_Index; reflexivity |].
  split; [vm_compute; reflexivity |]. split; reflexivity.
Qed.

(** The Content-Length a buffer declares decides the verdict once the
    body has started: INCOMPLETE while fewer bytes than declared follow
    the terminator, COMPLETE from then on.  Before the first body byte
    the verdict is INCOMPLETE whatever is declared. *)
Lemma declared_length_verdict (buffer : list byte) (n : Z) :
  occurs Http.headerTerminator buffer ->
  declared_length buffer = Some n ->
  (len buffer - headerEnd buffer < n -> evaluate buffer = INCOMPLETE) /\
  (n <= len buffer - headerEnd buffer -> headerEnd buffer < len buffer ->
   evaluate buffer = COMPLETE) /\
  (headerEnd buffer = len buffer -> evaluate buffer = INCOMPLETE).
Proof.
  intros Ht Hd. apply Index_occurs in Ht.
  destruct (declared_length_inv _ Hd) as [Hc [Hl Hp]].
  pose proof (headerEnd_le_len _ Ht) as Hle.
  unfold evaluate. repeat split.
  - intros H.
    destruct (Z_lt_ge_dec (headerEnd buffer) (len buffer)) as [Hb | Hb].
    + rewrite (body_started_result Ht Hc Hl Hb), Hp.
      apply Z.ltb_lt in H. rewrite H. reflexivity.
    + rewrite (body_not_started_incomplete Ht Hc Hl); [reflexivity | lia].
  - intros H Hb. rewrite (body_started_result Ht Hc Hl Hb), Hp.
    apply Z.ltb_ge in H. rewrite H. reflexivity.
  - intros H.
    rewrite (body_not_started_incomplete Ht Hc Hl); [reflexivity | lia].
Qed.

(** C7. A request that declares Content-Length 0 and has no body: the
    terminator is there, the declared length parses to 0 and zero bytes
    follow the terminator, so at least the declared number of bytes has
    arrived; the verdict is nevertheless INCOMPLETE, because the
    function returns before it reads the declared length when nothing
    follows the terminator. *)
Theorem zero_length_body_never_complete :
  let data := Sample.post "Content-Length: 0" "" in
  occurs Http.headerTerminator data /\
  declared_length data = Some 0 /\
  len data - headerEnd data = 0 /\
  Http.IsRequestComplete data = (false, None) /\
  evaluate data = INCOMPLETE.
Proof.
  cbv zeta. split; [apply occurs_by_Index; reflexivity |].
  repeat split; reflexivity.
Qed.




(** ** Purity of the framing function *)

Lemma IsRequestComplete_st_frame (m : Http.Memory) :
  snd (Http.IsRequestComplete_st m) = m.
Proof.
  cbv [Http.IsRequestComplete_st Http.load bind gets ret].
  repeat match goal with
         | |- context [if ?c then _ else _] => destruct c
         | |- context [Strconv.ParseInt ?s] =>
             destruct (Strconv.ParseInt s) as [clen [e |]]
         end; reflexivity.
Qed.

Lemma IsRequestComplete_st_value (m : Http.Memory) :
  Http.globals m = Http.initGlobals ->
  fst (Http.IsRequestComplete_st m) = Http.IsRequestComplete (Http.array m).
Proof.
  destruct m as [g data]. simpl. intros ->.
  cbv [Http.IsRequestComplete_st Http.IsRequestComplete Http.load
       bind gets ret Http.initGlobals Http.globals Http.array Http.v_crlf
       Http.v_headerTerminator Http.v_contentLengthHeader
       Http.v_contentLengthHeaderLength].
  repeat match goal with
         | |- context [if ?c then _ else _] => destruct c
         | |- context [Strconv.ParseInt ?s] =>
             destruct (Strconv.ParseInt s) as [clen [e |]]
         end; reflexivity.
Qed.

(** C8. The framing function is deterministic and free of side effects.
    Run on any memory (package variables and the bytes [data] views) it
    leaves that memory as it found it, so a second evaluation of the
    same buffer returns the same result; and with the package variables
    as initialised, the result is a function of the buffer contents
    alone: memories that hold the same bytes give the same result, the
    one of [Http.IsRequestComplete]. *)
Theorem IsRequestComplete_pure (m : Http.Memory) :
  let '(r1, m1) := Http.IsRequestComplete_st m in
  let '(r2, m2) := Http.IsRequestComplete_st m1 in
  m1 = m /\ m2 = m /\ r1 = r2 /\
  (Http.globals m = Http.initGlobals ->
   r1 = Http.IsRequestComplete (Http.array m) /\
   forall m' : Http.Memory,
     Http.globals m' = Http.initGlobals ->
     Http.array m' = Http.array m ->
     fst (Http.IsRequestComplete_st m') = r1).
Proof.
  pose proof (IsRequestComplete_st_frame m) as Hf.
  pose proof (@IsRequestComplete_st_value m) as Hv.
  destruct (Http.IsRequestComplete_st m) as [r1 m1] eqn:E1.
  simpl in Hf, Hv. subst m1. rewrite E1.
  split; [reflexivity |]. split; [reflexivity |]. split; [reflexivity |].
  intros Hg. split; [exact (Hv Hg) |].
  intros m' Hg' Ha. rewrite (@IsRequestComplete_st_value m' Hg'), Ha.
  symmetry. exact (Hv Hg).
Qed.

Lemma IsRequestComplete_pure_witness :
  let m := {| Http.globals := Http.initGlobals;
              Http.array := Sample.post "Content-Length: 5" "hel" |} in
  Http.IsRequestComplete_st m = ((false, None), m) /\
  Http.IsRequestComplete_st (snd (Http.IsRequestComplete_st m))
  = ((false, None), m).
Proof.
  cbv zeta.
  pose proof (IsRequestComplete_pure
    {| Http.globals := Http.initGlobals;
       Http.array := Sample.post "Content-Length: 5" "hel" |}) as H.
  destruct (Http.IsRequestComplete_st
    {| Http.globals := Http.initGlobals;
       Http.array := Sample.post "Content-Length: 5" "hel" |})
    as [r1 m1] eqn:E1.
  destruct (Http.IsRequestComplete_st m1) as [r2 m2] eqn:E2.
  destruct H as [H1 [H2 [H3 H4]]].
  destruct (H4 eq_refl) as [H5 _].
  simpl. rewrite E2. subst m1 m2 r2. rewrite H5.
  split; reflexivity.
Defined.

(** ** The readable callbacks *)

Lemma isRequestComplete_eq (b : list byte) :
  Evio.isRequestComplete b = Http.IsRequestComplete b.
Proof. reflexivity. Qed.

Lemma len_nonzero {A : Type} (s : list A) : s <> [] -> (len s =? 0) = false.
Proof.
  intros H. apply Z.eqb_neq. intros E. apply len_nil_iff in E. auto.
Qed.

Lemma evaluate_INCOMPLETE (data : list byte) :
  evaluate data = INCOMPLETE -> Http.IsRequestComplete data = (false, None).
Proof.
  unfold evaluate.
  destruct (Http.IsRequestComplete data) as [[|] [err |]];
    simpl; intros H; try discriminate; reflexivity.
Qed.

Lemma evaluate_COMPLETE (data : list byte) :
  evaluate data = COMPLETE -> Http.IsRequestComplete data = (true, None).
Proof.
  unfold evaluate.
  destruct (Http.IsRequestComplete data) as [[|] [err |]];
    simpl; intros H; try discriminate; reflexivity.
Qed.

Section Callbacks.

Variables Request ResponseWriter : Type.
Variable ReadRequest : list byte -> option Request.
Variable NewResponseWriter : ResponseWriter.
Variable WriteToBuf : ResponseWriter -> option (list byte).
Variable e : Gnet.Engine Request ResponseWriter.

Variable ctx : context.Context.
Variable readall : Request -> option (list byte).
Variable Write : Evio.Response -> option (list byte).

Let React := Gnet.React ReadRequest NewResponseWriter WriteToBuf e.
Let Data := Evio.Data ctx ReadRequest readall Write.

Lemma React_incomplete (in_ : list byte) (c : GnetLib.Conn) :
  in_ <> [] ->
  Http.IsRequestComplete (EvioLib.b (GnetLib.Context c) ++ in_)
  = (false, None) ->
  React in_ c
  = ((None, GnetLib.None),
     gnetHolding (EvioLib.b (GnetLib.Context c) ++ in_)).
Proof.
  intros Hin Hv. unfold React, Gnet.React.
  rewrite (len_nonzero Hin).
  cbv [bind GnetLib.onStream EvioLib.Begin EvioLib.End GnetLib.Context
       EvioLib.b ret].
  destruct c as [[buf]]. cbn [GnetLib.Context EvioLib.b] in *.
  rewrite Hv. reflexivity.
Qed.

Lemma React_malformed (in_ : list byte) (c : GnetLib.Conn) (err : error) :
  in_ <> [] ->
  snd (Http.IsRequestComplete (EvioLib.b (GnetLib.Context c) ++ in_))
  = Some err ->
  fst (React in_ c) = (None, GnetLib.Close).
Proof.
  intros Hin Hv. unfold React, Gnet.React.
  rewrite (len_nonzero Hin).
  cbv [bind GnetLib.onStream EvioLib.Begin EvioLib.End GnetLib.Context
       EvioLib.b ret].
  destruct c as [[buf]]. cbn [GnetLib.Context EvioLib.b] in *.
  destruct (Http.IsRequestComplete (buf ++ in_)) as [complete [e' |]];
    [reflexivity | discriminate].
Qed.

Lemma React_complete (in_ : list byte) (c : GnetLib.Conn) :
  in_ <> [] ->
  Http.IsRequestComplete (EvioLib.b (GnetLib.Context c) ++ in_)
  = (true, None) ->
  React in_ c =
  let data := EvioLib.b (GnetLib.Context c) ++ in_ in
  match ReadRequest data with
  | None => ((None, GnetLib.Close), gnetHolding data)
  | Some req =>
      match
        WriteToBuf
          (@Gnet.ServeHTTP _ _ (Gnet.httpHandler e) NewResponseWriter req)
      with
      | None => ((None, GnetLib.Close), gnetHolding data)
      | Some buf =>
          if context.Done (Gnet.ctx e)
          then ((Some buf, GnetLib.Close), gnetHolding data)
          else ((Some buf, GnetLib.None), gnetOpened)
      end
  end.
Proof.
  intros Hin Hv. unfold React, Gnet.React.
  rewrite (len_nonzero Hin).
  cbv [bind GnetLib.onStream EvioLib.Begin EvioLib.End GnetLib.Context
       EvioLib.b ret GnetLib.SetContext].
  destruct c as [[buf]]. cbn [GnetLib.Context EvioLib.b] in *.
  rewrite Hv. cbn [negb].
  destruct (ReadRequest (buf ++ in_)) as [req |]; [| reflexivity].
  destruct (WriteToBuf _) as [out |]; [| reflexivity].
  destruct (context.Done (Gnet.ctx e)); reflexivity.
Qed.

Lemma Data_incomplete (in_ : list byte) (c : EvioLib.Conn) :
  in_ <> [] ->
  Http.IsRequestComplete (EvioLib.b (EvioLib.Context c) ++ in_)
  = (false, None) ->
  Data in_ c
  = ((None, EvioLib.None),
     evioHolding (EvioLib.b (EvioLib.Context c) ++ in_)).
Proof.
  intros Hin Hv. unfold Data, Evio.Data.
  rewrite (len_nonzero Hin).
  cbv [bind EvioLib.onStream EvioLib.Begin EvioLib.End EvioLib.Context
       EvioLib.b ret].
  destruct c as [[buf]]. cbn [EvioLib.Context EvioLib.b] in *.
  rewrite isRequestComplete_eq, Hv. reflexivity.
Qed.

Lemma Data_complete (in_ : list byte) (c : EvioLib.Conn) :
  in_ <> [] ->
  Http.IsRequestComplete (EvioLib.b (EvioLib.Context c) ++ in_)
  = (true, None) ->
  Data in_ c =
  let data := EvioLib.b (EvioLib.Context c) ++ in_ in
  match ReadRequest data with
  | None => ((None, EvioLib.Close), evioHolding data)
  | Some req =>
      match readall req with
      | None => ((None, EvioLib.Close), evioHolding data)
      | Some body =>
          match
            Write {| Evio.StatusCode := 200;
                     Evio.ProtoMajor := 1;
                     Evio.ProtoMinor := 1;
                     Evio.ContentLength := len body;
                     Evio.Close := false;
                     Evio.Body := body |}
          with
          | None => ((None, EvioLib.Close), evioHolding data)
          | Some buf =>
              if context.Done ctx
              then ((None, EvioLib.Close), evioHolding data)
              else ((Some buf, EvioLib.None), evioOpened)
          end
      end
  end.
Proof.
  intros Hin Hv. unfold Data, Evio.Data.
  rewrite (len_nonzero Hin).
  cbv [bind EvioLib.onStream EvioLib.Begin EvioLib.End EvioLib.Context
       EvioLib.b ret EvioLib.SetContext].
  destruct c as [[buf]]. cbn [EvioLib.Context EvioLib.b] in *.
  rewrite isRequestComplete_eq, Hv. cbn [negb].
  destruct (ReadRequest (buf ++ in_)) as [req |]; [| reflexivity].
  destruct (readall req) as [body |]; [| reflexivity].
  destruct (Write _) as [out |]; [| reflexivity].
  destruct (context.Done ctx); reflexivity.
Qed.

(** C1, amended.  While the verdict is INCOMPLETE the readable callback
    of either backend stores the whole accumulated buffer, the bytes
    held so far followed by the delivered chunk, so no byte is lost
    while a request is being accumulated.  When the verdict is COMPLETE
    the whole accumulated buffer, with any bytes beyond the declared
    body length, is what is handed to decoding, and after a successful
    dispatch without shutdown the connection gets a fresh, empty input
    stream: bytes beyond the declared body length are not kept for a
    next framing pass. *)
Theorem buffer_kept_until_complete
    (in_ : list byte) (gc : GnetLib.Conn) (ec : EvioLib.Conn) :
  in_ <> [] ->
  (let data := EvioLib.b (GnetLib.Context gc) ++ in_ in
   (evaluate data = INCOMPLETE ->
    React in_ gc = ((None, GnetLib.None), gnetHolding data)) /\
   (evaluate data = COMPLETE ->
    forall req buf,
      ReadRequest data = Some req ->
      WriteToBuf
        (@Gnet.ServeHTTP _ _ (Gnet.httpHandler e) NewResponseWriter req)
      = Some buf ->
      context.Done (Gnet.ctx e) = false ->
      React in_ gc = ((Some buf, GnetLib.None), gnetOpened))) /\
  (let data := EvioLib.b (EvioLib.Context ec) ++ in_ in
   (evaluate data = INCOMPLETE ->
    Data in_ ec = ((None, EvioLib.None), evioHolding data)) /\
   (evaluate data = COMPLETE ->
    forall req body buf,
      ReadRequest data = Some req ->
      readall req = Some body ->
      Write {| Evio.StatusCode := 200;
               Evio.ProtoMajor := 1;
               Evio.ProtoMinor := 1;
               Evio.ContentLength := len body;
               Evio.Close := false;
               Evio.Body := body |} = Some buf ->
      context.Done ctx = false ->
      Data in_ ec = ((Some buf, EvioLib.None), evioOpened))).
Proof.
  intros Hin. cbv zeta. repeat split.
  - intros Hv. apply React_incomplete; [exact Hin |].
    apply evaluate_INCOMPLETE, Hv.
  - intros Hv req buf Hr Hw Hd. apply evaluate_COMPLETE in Hv.
    rewrite (React_complete gc Hin Hv). cbv zeta.
    rewrite Hr, Hw, Hd. reflexivity.
  - intros Hv. apply Data_incomplete; [exact Hin |].
    apply evaluate_INCOMPLETE, Hv.
  - intros Hv req body buf Hr Hb Hw Hd. apply evaluate_COMPLETE in Hv.
    rewrite (Data_complete ec Hin Hv). cbv zeta.
    rewrite Hr, Hb, Hw, Hd. reflexivity.
Qed.

(** With the shutdown signal set, a COMPLETE request that decodes and
    serializes is answered by the gnet callback: the response bytes are
    returned together with the close action. *)
Lemma React_drains_on_shutdown
    (in_ : list byte) (c : GnetLib.Conn) (req : Request) (buf : list byte) :
  in_ <> [] ->
  evaluate (EvioLib.b (GnetLib.Context c) ++ in_) = COMPLETE ->
  ReadRequest (EvioLib.b (GnetLib.Context c) ++ in_) = Some req ->
  WriteToBuf (@Gnet.ServeHTTP _ _ (Gnet.httpHandler e) NewResponseWriter req)
  = Some buf ->
  context.Done (Gnet.ctx e) = true ->
  fst (React in_ c) = (Some buf, GnetLib.Close).
Proof.
  intros Hin Hv Hr Hw Hd. apply evaluate_COMPLETE in Hv.
  rewrite (React_complete c Hin Hv). cbv zeta.
  rewrite Hr, Hw, Hd. reflexivity.
Qed.

(** With the shutdown signal set, the open callback of either backend
    closes the new connection. *)
Lemma open_closes_on_shutdown (gc : GnetLib.Conn) (ec : EvioLib.Conn) :
  context.Done (Gnet.ctx e) = true -> context.Done ctx = true ->
  fst (Gnet.OnOpened e gc) = (None, GnetLib.Close) /\
  fst (Evio.Opened ctx ec) = (None, EvioLib.Close).
Proof.
  intros Hg He. unfold Gnet.OnOpened, Evio.Opened.
  cbv [bind GnetLib.SetContext EvioLib.SetContext].
  rewrite Hg, He. split; reflexivity.
Qed.

(** With the shutdown signal set, the evio callback returns no bytes,
    whatever it is given. *)
Lemma Data_silent_on_shutdown (in_ : list byte) (c : EvioLib.Conn) :
  context.Done ctx = true -> fst (fst (Data in_ c)) = None.
Proof.
  intros Hd. unfold Data, Evio.Data.
  destruct (len in_ =? 0); [reflexivity |].
  cbv [bind EvioLib.onStream EvioLib.Begin EvioLib.End EvioLib.Context
       EvioLib.b ret EvioLib.SetContext].
  destruct c as [[buf]].
  destruct (Evio.isRequestComplete (buf ++ in_)) as [[|] [err |]];
    try reflexivity.
  cbn [negb].
  destruct (ReadRequest (buf ++ in_)) as [req |]; [| reflexivity].
  destruct (readall req) as [body |]; [| reflexivity].
  destruct (Write _) as [out |]; [| reflexivity].
  rewrite Hd. reflexivity.
Qed.

End Callbacks.

(** C1, as stated, fails: one read delivers a request with a two-byte
    body followed by the next request; the verdict is COMPLETE with the
    bytes of the next request beyond the declared body length, and after
    the dispatch the connection's buffer does not end with them (it is
    empty). *)
Lemma extra_bytes_are_discarded :
  ~ (forall (in_ : list byte) (c : GnetLib.Conn) (n : Z),
        let data := EvioLib.b (GnetLib.Context c) ++ in_ in
        evaluate data = COMPLETE ->
        declared_length data = Some n ->
        headerEnd data + n < len data ->
        exists kept,
          EvioLib.b (GnetLib.Context (snd (Echo.React false in_ c)))
          = kept ++ slice_from data (headerEnd data + n)).
Proof.
  intros H. specialize (H Sample.pipelined gnetOpened 2).
  cbv zeta in H.
  destruct H as [kept E].
  - reflexivity.
  - reflexivity.
  - vm_compute. reflexivity.
  - apply (f_equal (@length byte)) in E. rewrite length_app in E.
    assert (L : length
                  (slice_from ([] ++ Sample.pipelined)
                     (headerEnd ([] ++ Sample.pipelined) + 2))
                = 27%nat) by reflexivity.
    assert (Z0 : length
                   (EvioLib.b
                      (GnetLib.Context
                         (snd (Echo.React false Sample.pipelined
                                 gnetOpened))))
                 = 0%nat) by reflexivity.
    cbn [EvioLib.b GnetLib.Context gnetOpened EvioLib.emptyStream] in E.
    rewrite L, Z0 in E. lia.
Qed.

Lemma buffer_kept_until_complete_witness :
  snd (Echo.React false (bytes_of "GET / HT") gnetOpened)
  = gnetHolding (bytes_of "GET / HT") /\
  snd (Echo.React false Sample.pipelined gnetOpened) = gnetOpened /\
  snd (Echo.Data false (bytes_of "GET / HT") evioOpened)
  = evioHolding (bytes_of "GET / HT") /\
  snd (Echo.Data false Sample.pipelined evioOpened) = evioOpened.
Proof.
  assert (Hne1 : bytes_of "GET / HT" <> []) by discriminate.
  assert (Hne2 : Sample.pipelined <> []) by discriminate.
  pose proof (@buffer_kept_until_complete
                (list byte) (list byte) Echo.ReadRequest
                Echo.NewResponseWriter Echo.WriteToBuf (Echo.engine false)
                {| context.Done := false |} Echo.readall Echo.Write
                (bytes_of "GET / HT") gnetOpened evioOpened Hne1)
    as [[Hg1 _] [He1 _]].
  pose proof (@buffer_kept_until_complete
                (list byte) (list byte) Echo.ReadRequest
                Echo.NewResponseWriter Echo.WriteToBuf (Echo.engine false)
                {| context.Done := false |} Echo.readall Echo.Write
                Sample.pipelined gnetOpened evioOpened Hne2)
    as [[_ Hg2] [_ He2]].
  unfold Echo.React, Echo.Data. split; [| split; [| split]].
  - rewrite Hg1; reflexivity.
  - erewrite Hg2; reflexivity.
  - rewrite He1; reflexivity.
  - erewrite He2; reflexivity.
Defined.

(** C2. With the shutdown signal set and a buffer that frames as
    COMPLETE, the evio callback closes the connection without the
    response: it returns nil with the close action, where the gnet
    callback returns the serialized response with the close action, and
    where the evio callback itself returns the response when the signal
    is not set.  Whatever the collaborators and the input, the evio
    callback returns no bytes once the signal is set. *)
Theorem evio_shutdown_drops_response :
  evaluate Sample.get = COMPLETE /\
  Echo.Data true Sample.get evioOpened
  = ((None, EvioLib.Close), evioHolding Sample.get) /\
  (exists buf, fst (Echo.React true Sample.get gnetOpened)
               = (Some buf, GnetLib.Close)) /\
  (exists buf, fst (Echo.Data false Sample.get evioOpened)
               = (Some buf, EvioLib.None)) /\
  (forall (Request : Type) (ReadRequest : list byte -> option Request)
          (readall : Request -> option (list byte))
          (Write : Evio.Response -> option (list byte))
          (in_ : list byte) (c : EvioLib.Conn),
      fst (fst (Evio.Data {| context.Done := true |}
                  ReadRequest readall Write in_ c)) = None).
Proof.
  split; [reflexivity |]. split; [reflexivity |].
  split; [eexists; reflexivity |]. split; [eexists; reflexivity |].
  intros Request ReadRequest readall Write in_ c.
  apply Data_silent_on_shutdown. reflexivity.
Qed.

(** ** Fragmented delivery *)

Lemma len_slice_from {A : Type} (s : list A) (lo : Z) :
  0 <= lo <= len s -> len (slice_from s lo) = len s - lo.
Proof.
  unfold len, slice_from. intros H. rewrite length_skipn. lia.
Qed.

Lemma skipn_head_in {A : Type} (l : list A) (k : nat) :
  (k < length l)%nat -> exists x tl, skipn k l = x :: tl /\ In x l.
Proof.
  revert k. induction l as [| a l IH]; intros k H; simpl in H; [lia |].
  destruct k as [| k].
  - exists a, l. split; [reflexivity | left; reflexivity].
  - destruct (IH k) as [x [tl [E Hx]]]; [lia |].
    exists x, tl. split; [exact E | right; exact Hx].
Qed.

(** Two occurrences overlap only if the first byte of the later one is
    a byte of the earlier one. *)
Lemma overlap_shares_byte (data tok sep : list byte) (c : byte) (i j : nat) :
  Bytes.HasPrefix (skipn i data) tok = true ->
  Bytes.HasPrefix (skipn j data) (c :: sep) = true ->
  (i <= j < i + length tok)%nat ->
  In c tok.
Proof.
  intros Ht Hs Hij.
  apply HasPrefix_iff in Ht, Hs.
  destruct Ht as [rest Ht]. destruct Hs as [rest' Hs].
  replace j with ((j - i) + i)%nat in Hs by lia.
  rewrite <- skipn_skipn, Ht in Hs.
  rewrite skipn_app_le in Hs by lia.
  destruct (@skipn_head_in _ tok (j - i)%nat) as [x [tl [E Hx]]]; [lia |].
  rewrite E in Hs. simpl in Hs. injection Hs as -> _. exact Hx.
Qed.

Lemma token_has_no_CR : ~ In CR Http.contentLengthHeader.
Proof.
  intros H. simpl in H.
  repeat (destruct H as [H | H]; [discriminate |]). exact H.
Qed.

(** A Content-Length token that starts before the header terminator
    ends before it, and its line ends at the terminator at the latest. *)
Lemma token_before_terminator (data : list byte) :
  0 <= Bytes.Index data Http.contentLengthHeader
    < Bytes.Index data Http.headerTerminator ->
  Bytes.Index data Http.contentLengthHeader + 16
    <= Bytes.Index data Http.headerTerminator /\
  0 <= Bytes.Index
         (slice_from data (Bytes.Index data Http.contentLengthHeader))
         Http.crlf
    <= Bytes.Index data Http.headerTerminator
       - Bytes.Index data Http.contentLengthHeader.
Proof.
  intros [Hc Hlt].
  assert (Ht : 0 <= Bytes.Index data Http.headerTerminator) by lia.
  destruct (Index_found _ _ Hc) as [Hcl [Hcp _]].
  destruct (Index_found _ _ Ht) as [Htl [Htp _]].
  set (cl := Bytes.Index data Http.contentLengthHeader) in *.
  set (ht := Bytes.Index data Http.headerTerminator) in *.
  split.
  - destruct (Z_le_gt_dec (cl + 16) ht) as [H | H]; [exact H |].
    exfalso. apply token_has_no_CR.
    apply (@overlap_shares_byte data Http.contentLengthHeader
             [LF; CR; LF] CR (Z.to_nat cl) (Z.to_nat ht) Hcp Htp).
    change (length Http.contentLengthHeader) with 16%nat. lia.
  - assert (Hp : Bytes.HasPrefix
                   (skipn (Z.to_nat (ht - cl)) (slice_from data cl))
                   Http.crlf = true).
    { unfold slice_from. rewrite skipn_skipn.
      replace (Z.to_nat (ht - cl) + Z.to_nat cl)%nat with (Z.to_nat ht)
        by lia.
      apply HasPrefix_iff in Htp. destruct Htp as [rest ->].
      apply HasPrefix_iff. exists ([CR; LF] ++ rest). reflexivity. }
    apply Index_le_occurrence in Hp.
    + lia.
    + unfold slice_from. rewrite length_skipn. lia.
Qed.

(** A prefix that holds the whole header section sees the header
    section as the whole buffer does. *)
Lemma header_region_stable (p q : list byte) :
  0 <= Bytes.Index (p ++ q) Http.contentLengthHeader
    < Bytes.Index (p ++ q) Http.headerTerminator ->
  headerEnd (p ++ q) <= len p ->
  Bytes.Index p Http.headerTerminator
  = Bytes.Index (p ++ q) Http.headerTerminator /\
  Bytes.Index p Http.contentLengthHeader
  = Bytes.Index (p ++ q) Http.contentLengthHeader /\
  length_line_ends p /\
  length_line_ends (p ++ q) /\
  length_value p = length_value (p ++ q).
Proof.
  unfold headerEnd. intros Hc Hp.
  destruct (token_before_terminator _ Hc) as [Htok Hline].
  assert (E1 : Bytes.Index p Http.headerTerminator
               = Bytes.Index (p ++ q) Http.headerTerminator).
  { apply Index_app_stable; [lia |].
    change (len Http.headerTerminator) with 4. lia. }
  assert (E2 : Bytes.Index p Http.contentLengthHeader
               = Bytes.Index (p ++ q) Http.contentLengthHeader).
  { apply Index_app_stable; [lia |].
    change (len Http.contentLengthHeader) with 16. lia. }
  assert (E3 : Bytes.Index
                 (slice_from p (Bytes.Index p Http.contentLengthHeader))
                 Http.crlf
               = Bytes.Index
                   (slice_from (p ++ q)
                      (Bytes.Index (p ++ q) Http.contentLengthHeader))
                   Http.crlf).
  { rewrite E2. rewrite (@slice_from_app _ p q) by lia.
    rewrite (@slice_from_app _ p q) in Hline by lia.
    apply Index_app_stable; [lia |].
    rewrite len_slice_from by lia.
    change (len Http.crlf) with 2. lia. }
  split; [exact E1 |]. split; [exact E2 |].
  unfold length_line_ends, length_value.
  rewrite E3, E2. split; [lia |]. split; [lia |].
  symmetry. apply slice_app.
  - change Http.contentLengthHeaderLength with 16. lia.
  - lia.
Qed.

Lemma well_formed_inv (req : list byte) :
  well_formed req = true ->
  0 <= Bytes.Index req Http.headerTerminator /\
  ((Bytes.Index req Http.contentLengthHeader < 0 /\
    declared_length req = None /\
    len req = headerEnd req) \/
   (0 <= Bytes.Index req Http.contentLengthHeader
      < Bytes.Index req Http.headerTerminator /\
    exists n, Strconv.ParseInt (length_value req) = (n, None) /\
              declared_length req = Some n /\
              0 <= n /\ len req = headerEnd req + n)).
Proof.
  unfold well_formed, declared_length, headerEnd. intros H.
  apply andb_true_iff in H. destruct H as [Ht H].
  apply Z.leb_le in Ht. split; [exact Ht |].
  destruct (Bytes.Index req Http.contentLengthHeader <? 0) eqn:Ec.
  - left. apply Z.ltb_lt in Ec. apply Z.eqb_eq in H. auto.
  - right. apply Z.ltb_ge in Ec.
    apply andb_true_iff in H. destruct H as [Hlt H].
    apply Z.ltb_lt in Hlt. split; [lia |].
    destruct (Strconv.ParseInt (length_value req)) as [n [err |]];
      [discriminate |].
    apply andb_true_iff in H. destruct H as [Hn Hl].
    apply Z.leb_le in Hn. apply Z.eqb_eq in Hl.
    exists n. auto.
Qed.

(** Every strict prefix of a well-formed request is INCOMPLETE. *)
Lemma strict_prefix_incomplete (p q : list byte) :
  well_formed (p ++ q) = true -> q <> [] ->
  Http.IsRequestComplete p = (false, None).
Proof.
  intros Hw Hq.
  assert (Hlen : len p < len (p ++ q)).
  { rewrite len_app. pose proof (len_nonneg q).
    assert (len q <> 0) by (intros E; apply len_nil_iff in E; auto). lia. }
  destruct (well_formed_inv _ Hw) as [Ht Hcases].
  destruct (Z_lt_ge_dec (len p) (headerEnd (p ++ q))) as [Hshort | Hlong].
  - apply no_terminator_incomplete.
    rewrite (@Index_app_none p q Http.headerTerminator); [lia |].
    right. unfold headerEnd in Hshort.
    change (len Http.headerTerminator) with 4. lia.
  - destruct Hcases as [[_ [_ Hl]] | [Hc [n [Hp [_ [Hn Hl]]]]]]; [lia |].
    destruct (@header_region_stable p q Hc) as [E1 [E2 [L1 [_ E3]]]];
      [lia |].
    assert (Hhe : headerEnd p = headerEnd (p ++ q))
      by (unfold headerEnd; rewrite E1; reflexivity).
    assert (Ht' : 0 <= Bytes.Index p Http.headerTerminator) by lia.
    assert (Hc' : 0 <= Bytes.Index p Http.contentLengthHeader) by lia.
    destruct (Z_lt_ge_dec (headerEnd p) (len p)) as [Hb | Hb].
    + rewrite (body_started_result Ht' Hc' L1 Hb), E3, Hp.
      assert (Hlt : len p - headerEnd p < n) by lia.
      apply Z.ltb_lt in Hlt. rewrite Hlt. reflexivity.
    + apply (body_not_started_incomplete Ht' Hc' L1). lia.
Qed.

(** A well-formed request that does not declare a zero length is
    COMPLETE. *)
Lemma well_formed_complete (req : list byte) :
  well_formed req = true -> declared_length req <> Some 0 ->
  Http.IsRequestComplete req = (true, None).
Proof.
  intros Hw Hz.
  destruct (well_formed_inv _ Hw)
    as [Ht [[Hc [_ Hl]] | [Hc [n [Hp [Hd [Hn Hl]]]]]]].
  - rewrite (no_length_result _ Ht Hc).
    symmetry in Hl. apply Z.eqb_eq in Hl. rewrite Hl. reflexivity.
  - assert (n <> 0) by (intros ->; auto).
    pose proof (app_nil_r req) as Hnil.
    destruct (@header_region_stable req [])
      as [_ [_ [L1 _]]]; rewrite ?Hnil; [exact Hc | | ].
    + apply headerEnd_le_len. exact Ht.
    + assert (Hc' : 0 <= Bytes.Index req Http.contentLengthHeader) by lia.
      assert (Hb : headerEnd req < len req) by lia.
      rewrite (body_started_result Ht Hc' L1 Hb), Hp.
      assert (Hge : n <= len req - headerEnd req) by lia.
      apply Z.ltb_ge in Hge. rewrite Hge. reflexivity.
Qed.

Section Delivery.

Variables Request ResponseWriter : Type.
Variable ReadRequest : list byte -> option Request.
Variable NewResponseWriter : ResponseWriter.
Variable WriteToBuf : ResponseWriter -> option (list byte).
Variable e : Gnet.Engine Request ResponseWriter.

Let React := Gnet.React ReadRequest NewResponseWriter WriteToBuf e.
Let run := deliver ReadRequest NewResponseWriter WriteToBuf e.

Lemma deliver_app (xs ys : list (list byte)) (c : GnetLib.Conn) :
  run (xs ++ ys) c =
  let '(r1, c1) := run xs c in
  let '(r2, c2) := run ys c1 in
  (r1 ++ r2, c2).
Proof.
  revert c. induction xs as [| x xs IH]; intros c.
  - simpl. unfold ret. destruct (run ys c). reflexivity.
  - unfold run in *. simpl. unfold bind, ret in *.
    destruct (Gnet.React ReadRequest NewResponseWriter WriteToBuf e x c)
      as [r c1].
    rewrite IH.
    destruct (deliver ReadRequest NewResponseWriter WriteToBuf e xs c1)
      as [r1 c2].
    destruct (deliver ReadRequest NewResponseWriter WriteToBuf e ys c2)
      as [r2 c3].
    reflexivity.
Qed.

(** While every accumulated buffer is INCOMPLETE, the chunks pile up in
    the connection's stream and nothing is emitted. *)
Lemma deliver_waiting (chunks : list (list byte)) (buf : list byte) :
  Forall (fun ch => ch <> []) chunks ->
  (forall k, (1 <= k <= length chunks)%nat ->
     Http.IsRequestComplete (buf ++ concat (firstn k chunks))
     = (false, None)) ->
  run chunks (gnetHolding buf)
  = (repeat (None, GnetLib.None) (length chunks),
     gnetHolding (buf ++ concat chunks)).
Proof.
  revert buf. induction chunks as [| ch rest IH]; intros buf Hne Hinc.
  - simpl. rewrite app_nil_r. reflexivity.
  - inversion Hne as [| ? ? Hch Hrest]; subst.
    unfold run in *. simpl. unfold bind.
    pose proof (Hinc 1%nat) as H1. simpl in H1. rewrite app_nil_r in H1.
    rewrite (@React_incomplete _ _ ReadRequest NewResponseWriter WriteToBuf
               e ch (gnetHolding buf) Hch); [| apply H1; lia].
    simpl. rewrite (IH (buf ++ ch) Hrest).
    + unfold ret. rewrite <- app_assoc. reflexivity.
    + intros k Hk. rewrite <- app_assoc. apply (Hinc (S k)). simpl. lia.
Qed.

(** A well-formed request that does not declare a zero length frames
    the same however it is fragmented: delivered in non-empty chunks to
    a freshly opened connection, every call but the last returns nothing
    and waits, and the last call returns what a single call on the
    whole request returns and leaves the connection as that call does.
    The whole request is COMPLETE, and each of its strict prefixes is
    INCOMPLETE. *)
Lemma chunked_delivery_frames_alike
    (req : list byte) (init : list (list byte)) (final : list byte) :
  well_formed req = true ->
  declared_length req <> Some 0 ->
  Forall (fun ch => ch <> []) (init ++ [final]) ->
  concat (init ++ [final]) = req ->
  run (init ++ [final]) gnetOpened
  = (repeat (None, GnetLib.None) (length init)
       ++ [fst (React req gnetOpened)],
     snd (React req gnetOpened)) /\
  evaluate req = COMPLETE /\
  (forall p q, req = p ++ q -> q <> [] -> evaluate p = INCOMPLETE).
Proof.
  intros Hw Hz Hne Hcat.
  apply Forall_app in Hne. destruct Hne as [Hinit Hfinal].
  apply Forall_inv in Hfinal.
  rewrite concat_app in Hcat. simpl in Hcat. rewrite app_nil_r in Hcat.
  pose proof (@well_formed_complete req Hw Hz) as Hc.
  assert (Hreq : req <> []).
  { intros E. rewrite E in Hcat. apply app_eq_nil in Hcat.
    destruct Hcat as [_ Hcat]. auto. }
  split; [| split].
  - rewrite deliver_app.
    change gnetOpened with (gnetHolding []).
    rewrite (@deliver_waiting init [] Hinit).
    + unfold run. simpl. unfold bind, ret.
      assert (HR : Gnet.React ReadRequest NewResponseWriter WriteToBuf e
                     final (gnetHolding (concat init))
                   = React req (gnetHolding [])).
      { unfold React.
        rewrite !React_complete; simpl; rewrite ?Hcat;
          try reflexivity; assumption. }
      rewrite HR. destruct (React req (gnetHolding [])) as [r c'].
      reflexivity.
    + intros k Hk. simpl.
      apply (@strict_prefix_incomplete _ (concat (skipn k init) ++ final)).
      * rewrite app_assoc, <- concat_app, firstn_skipn, Hcat. exact Hw.
      * intros E. apply app_eq_nil in E. destruct E as [_ E]. auto.
  - unfold evaluate. rewrite Hc. reflexivity.
  - intros p q -> Hq. unfold evaluate.
    rewrite (@strict_prefix_incomplete p q Hw Hq). reflexivity.
Qed.

End Delivery.

Example post_in_three_chunks :
  deliver Echo.ReadRequest Echo.NewResponseWriter Echo.WriteToBuf
    (Echo.engine false)
    [bytes_of "POST / HTTP/1.1" ++ [CR];
     [LF] ++ bytes_of "Content-Length: 5" ++ Http.headerTerminator
       ++ bytes_of "he";
     bytes_of "llo"]
    gnetOpened
  = ([(None, GnetLib.None); (None, GnetLib.None);
      fst (Echo.React false (Sample.post "Content-Length: 5" "hello")
             gnetOpened)],
     gnetOpened).
Proof.
  apply (@chunked_delivery_frames_alike
           (list byte) (list byte) Echo.ReadRequest Echo.NewResponseWriter
           Echo.WriteToBuf (Echo.engine false)
           (Sample.post "Content-Length: 5" "hello")
           [bytes_of "POST / HTTP/1.1" ++ [CR];
            [LF] ++ bytes_of "Content-Length: 5" ++ Http.headerTerminator
              ++ bytes_of "he"]
           (bytes_of "llo")).
  - reflexivity.
  - vm_compute. discriminate.
  - repeat constructor; discriminate.
  - reflexivity.
Qed.

(** C5. A request that declares Content-Length 0 and has no body is
    well formed, yet it never reaches a COMPLETE verdict: delivered in
    one chunk or in two, every call returns nothing and waits, and the
    whole request stays in the connection's buffer. *)
Theorem zero_length_request_is_never_framed :
  let req := Sample.post "Content-Length: 0" "" in
  well_formed req = true /\
  evaluate req = INCOMPLETE /\
  Echo.React false req gnetOpened
  = ((None, GnetLib.None), gnetHolding req) /\
  deliver Echo.ReadRequest Echo.NewResponseWriter Echo.WriteToBuf
    (Echo.engine false)
    [bytes_of "POST / HTTP/1.1" ++ Http.crlf;
     bytes_of "Content-Length: 0" ++ Http.headerTerminator]
    gnetOpened
  = ([(None, GnetLib.None); (None, GnetLib.None)], gnetHolding req).
Proof.
  cbv zeta. split; [reflexivity |]. split; [reflexivity |].
  split; reflexivity.
Qed.

(** ** The slice expressions stay in bounds *)

(** X1. The value slice [data[clIdx+contentLengthHeaderLength : clEndIdx]]
    is taken within the buffer and with its bounds in order, so the
    function does not panic: the line break found after the token lies
    past the token, which holds no carriage return. *)
Lemma length_value_in_bounds (data : list byte) :
  0 <= Bytes.Index data Http.contentLengthHeader ->
  length_line_ends data ->
  let clIdx := Bytes.Index data Http.contentLengthHeader in
  let clEndIdx := Bytes.Index (slice_from data clIdx) Http.crlf + clIdx in
  clIdx <= len data /\
  clIdx + Http.contentLengthHeaderLength <= clEndIdx <= len data.
Proof.
  unfold length_line_ends. intros Hc Hl. cbv zeta.
  set (cl := Bytes.Index data Http.contentLengthHeader) in *.
  destruct (Index_found _ _ Hc) as [Hcl [Hcp _]]. fold cl in Hcl, Hcp.
  destruct (Index_found _ _ Hl) as [Hrl [Hrp _]].
  set (rel := Bytes.Index (slice_from data cl) Http.crlf) in *.
  pose proof (Index_bounds _ _ Hl) as Hb. fold rel in Hb.
  rewrite len_slice_from in Hb by (unfold len; lia).
  change (len Http.crlf) with 2 in Hb.
  change Http.contentLengthHeaderLength with 16.
  split; [unfold len; lia |]. split; [| lia].
  destruct (Z_le_gt_dec 16 rel) as [H | H]; [lia |].
  exfalso. apply token_has_no_CR.
  apply (@overlap_shares_byte (slice_from data cl) Http.contentLengthHeader
           [LF] CR 0%nat (Z.to_nat rel)).
  - exact Hcp.
  - exact Hrp.
  - change (length Http.contentLengthHeader) with 16%nat. lia.
Qed.

(** ** What [strconv.ParseInt] rejects *)

Lemma parse_digits_rejects (s : list byte) (n : Z) :
  existsb (fun c => negb (is_digit c)) s = true ->
  snd (Strconv.parse_digits s n) <> None.
Proof.
  revert n. induction s as [| c s IH]; intros n H; simpl in H;
    [discriminate |].
  cbn [Strconv.parse_digits]. fold (is_digit c).
  destruct (is_digit c) eqn:Ed; simpl in H; [| simpl; discriminate].
  cbv zeta.
  destruct (n >=? Strconv.maxUint64 / 10 + 1); [simpl; discriminate |].
  destruct (_ || _); [simpl; discriminate |].
  apply IH, H.
Qed.

(** A value with a byte that is not a decimal digit, the leading sign
    apart, is rejected. *)
Lemma ParseInt_rejects (c : byte) (s : list byte) :
  existsb (fun c => negb (is_digit c)) s = true ->
  snd (Strconv.ParseInt (c :: s)) <> None.
Proof.
  intros H. unfold Strconv.ParseInt.
  assert (Hs : forall t, existsb (fun c => negb (is_digit c)) t = true ->
               exists v e, Strconv.ParseUint t = (v, Some e)).
  { intros t Ht. pose proof (@parse_digits_rejects t 0 Ht) as Hr.
    unfold Strconv.ParseUint. destruct t as [| d t]; [discriminate |].
    destruct (Strconv.parse_digits (d :: t) 0) as [v [e |]].
    - exists v, e. reflexivity.
    - exfalso. apply Hr. reflexivity. }
  assert (Hcase : exists v e,
            Strconv.ParseUint
              (if Byte.eqb c x2b || Byte.eqb c x2d then s else c :: s)
            = (v, Some e)).
  { destruct (Byte.eqb c x2b || Byte.eqb c x2d).
    - apply Hs, H.
    - apply Hs. simpl. rewrite H. apply orb_true_r. }
  destruct Hcase as [v [e Hp]]. cbv zeta. rewrite Hp.
  destruct e; [simpl; discriminate |].
  destruct (negb (Byte.eqb c x2d) && (v >=? 2 ^ 63)) eqn:E1;
    [simpl; discriminate |].
  destruct (Byte.eqb c x2d && (v >? 2 ^ 63)) eqn:E2;
    [simpl; discriminate |].
  exfalso.
  assert (Hv : v = Strconv.maxUint64).
  { clear E1 E2.
    assert (G : forall t n v', Strconv.parse_digits t n = (v', Some Strconv.ErrRange) ->
                v' = Strconv.maxUint64).
    { induction t as [| d t IHt]; intros n v' Hpd; [discriminate |].
      cbn [Strconv.parse_digits] in Hpd. cbv zeta in Hpd.
      destruct (_ && _) in Hpd; [| discriminate].
      destruct (n >=? _) in Hpd; [injection Hpd as <-; reflexivity |].
      destruct (_ || _) in Hpd; [injection Hpd as <-; reflexivity |].
      apply (IHt _ _ Hpd). }
    unfold Strconv.ParseUint in Hp.
    destruct (if Byte.eqb c x2b || Byte.eqb c x2d then s else c :: s);
      [discriminate |].
    apply (G _ _ _ Hp). }
  subst v. destruct (Byte.eqb c x2d); simpl in E1, E2; discriminate.
Qed.

(** * Further properties of the code *)

(** ** The framing function *)

Lemma length_value_in_bounds_witness :
  let data := Sample.post "Content-Length: 5" "hel" in
  let clIdx := Bytes.Index data Http.contentLengthHeader in
  let clEndIdx := Bytes.Index (slice_from data clIdx) Http.crlf + clIdx in
  clIdx <= len data /\
  clIdx + Http.contentLengthHeaderLength <= clEndIdx <= len data.
Proof.
  apply (@length_value_in_bounds (Sample.post "Content-Length: 5" "hel")).
  - vm_compute. discriminate.
  - vm_compute. discriminate.
Defined.

(** X2. The function never reports an error before the header
    terminator has arrived, and never reports a request complete
    together with an error. *)
Theorem error_needs_terminator
    (data : list byte) (complete : bool) (err : error) :
  Http.IsRequestComplete data = (complete, Some err) ->
  complete = false /\ occurs Http.headerTerminator data.
Proof.
  rewrite IsRequestComplete_unfold. intros H.
  destruct (Bytes.Index data Http.headerTerminator <? 0) eqn:Et;
    [discriminate |].
  apply Z.ltb_ge in Et. split; [| apply Index_occurs; exact Et].
  repeat match type of H with
         | (if ?c then _ else _) = _ => destruct c
         | (match ?p with _ => _ end) = _ => destruct p as [clen [e |]]
         end; inversion H; reflexivity.
Qed.

Lemma error_needs_terminator_witness :
  occurs Http.headerTerminator (Sample.bare (bytes_of "hello")).
Proof.
  apply (@error_needs_terminator
           (Sample.bare (bytes_of "hello")) false errBadRequest).
  reflexivity.
Defined.

(** More bytes leave the header section as it was read: the terminator
    and the token are found where they were, and the Content-Length
    line, once it has its line break, keeps its value. *)
Lemma header_view_extend (data more : list byte) :
  0 <= Bytes.Index data Http.headerTerminator ->
  0 <= Bytes.Index data Http.contentLengthHeader ->
  length_line_ends data ->
  headerEnd (data ++ more) = headerEnd data /\
  Bytes.Index (data ++ more) Http.contentLengthHeader
  = Bytes.Index data Http.contentLengthHeader /\
  length_line_ends (data ++ more) /\
  length_value (data ++ more) = length_value data.
Proof.
  unfold headerEnd, length_line_ends, length_value. intros Ht Hc Hl.
  pose proof (Index_bounds _ _ Hc) as Hcb.
  pose proof (Index_bounds _ _ Hl) as Hlb.
  change (len Http.contentLengthHeader) with 16 in Hcb.
  change (len Http.crlf) with 2 in Hlb.
  rewrite len_slice_from in Hlb by lia.
  rewrite (Index_app_extend data more Http.headerTerminator Ht).
  rewrite (Index_app_extend data more Http.contentLengthHeader Hc).
  rewrite (@slice_from_app _ data more) by lia.
  rewrite (Index_app_extend _ more Http.crlf Hl).
  split; [reflexivity |]. split; [reflexivity |]. split; [exact Hl |].
  apply slice_app.
  - change Http.contentLengthHeaderLength with 16. lia.
  - lia.
Qed.

(** X3. Once a buffer with a Content-Length token is complete, it stays
    complete whatever bytes follow: what a later read appends does not
    change the verdict. *)
Theorem complete_with_length_is_stable (data more : list byte) :
  occurs Http.contentLengthHeader data ->
  Http.IsRequestComplete data = (true, None) ->
  Http.IsRequestComplete (data ++ more) = (true, None).
Proof.
  intros Hc Hv. apply Index_occurs in Hc.
  rewrite IsRequestComplete_unfold in Hv.
  destruct (Bytes.Index data Http.headerTerminator <? 0) eqn:Et;
    [discriminate |].
  apply Z.ltb_ge in Et.
  destruct (Bytes.Index data Http.contentLengthHeader <? 0) eqn:Ec;
    [apply Z.ltb_lt in Ec; lia |].
  destruct (Bytes.Index
              (slice_from data (Bytes.Index data Http.contentLengthHeader))
              Http.crlf <? 0) eqn:El; [discriminate |].
  apply Z.ltb_ge in El.
  destruct (headerEnd data >=? len data) eqn:Eb; [discriminate |].
  assert (Hb : headerEnd data < len data).
  { destruct (Z_lt_ge_dec (headerEnd data) (len data)) as [H | H];
      [exact H |].
    apply Z.ge_le, Z.geb_le in H. rewrite H in Eb. discriminate. }
  destruct (Strconv.ParseInt (length_value data)) as [clen [e |]] eqn:Ep;
    [discriminate |].
  destruct (len data - headerEnd data <? clen) eqn:En; [discriminate |].
  apply Z.ltb_ge in En.
  destruct (header_view_extend more Et Hc El) as [E1 [E2 [L E3]]].
  pose proof (len_nonneg more) as Hm.
  rewrite body_started_result.
  - rewrite E3, Ep, E1, len_app.
    assert (G : clen <= len data + len more - headerEnd data) by lia.
    apply Z.ltb_ge in G. rewrite G. reflexivity.
  - rewrite (Index_app_extend data more Http.headerTerminator Et). exact Et.
  - rewrite E2. exact Hc.
  - exact L.
  - rewrite E1, len_app. lia.
Qed.

Lemma complete_with_length_is_stable_witness :
  Http.IsRequestComplete Sample.pipelined = (true, None).
Proof.
  apply (@complete_with_length_is_stable
           (Sample.post "Content-Length: 2" "hi") Sample.get).
  - apply occurs_by_Index. reflexivity.
  - reflexivity.
Defined.

(** X4. When the token is found before the header terminator, the
    function never returns [errBadRequest]: the Content-Length line has
    its line break, and the only error left is the one of
    [strconv.ParseInt]. *)
Theorem header_token_never_bad_request (data : list byte) :
  0 <= Bytes.Index data Http.contentLengthHeader
    < Bytes.Index data Http.headerTerminator ->
  snd (Http.IsRequestComplete data) <> Some errBadRequest.
Proof.
  intros Hc. destruct (token_before_terminator _ Hc) as [_ Hl].
  rewrite IsRequestComplete_unfold.
  destruct (Bytes.Index data Http.headerTerminator <? 0);
    [simpl; discriminate |].
  destruct (Bytes.Index data Http.contentLengthHeader <? 0) eqn:Ec;
    [apply Z.ltb_lt in Ec; lia |].
  destruct (Bytes.Index
              (slice_from data (Bytes.Index data Http.contentLengthHeader))
              Http.crlf <? 0) eqn:El; [apply Z.ltb_lt in El; lia |].
  destruct (headerEnd data >=? len data); [simpl; discriminate |].
  destruct (Strconv.ParseInt (length_value data)) as [clen [e |]];
    [simpl; discriminate |].
  destruct (len data - headerEnd data <? clen); simpl; discriminate.
Qed.

Lemma header_token_never_bad_request_witness :
  snd (Http.IsRequestComplete (Sample.post "Content-Length: 12a" "x"))
  <> Some errBadRequest.
Proof.
  apply (@header_token_never_bad_request
           (Sample.post "Content-Length: 12a" "x")).
  vm_compute. split; [discriminate | reflexivity].
Defined.

(** ** The readable callbacks *)

Section Readable.

Variables Request ResponseWriter : Type.
Variable ReadRequest : list byte -> option Request.
Variable NewResponseWriter : ResponseWriter.
Variable WriteToBuf : ResponseWriter -> option (list byte).
Variable readall : Request -> option (list byte).
Variable Write : Evio.Response -> option (list byte).

Let React := Gnet.React ReadRequest NewResponseWriter WriteToBuf.
Let Data := fun ctx => Evio.Data ctx ReadRequest readall Write.
Let run := deliver ReadRequest NewResponseWriter WriteToBuf.

(** What the gnet handler answers to the decoded request, serialized. *)
Let answer (e : Gnet.Engine Request ResponseWriter) (req : Request)
  : option (list byte) :=
  WriteToBuf (@Gnet.ServeHTTP _ _ (Gnet.httpHandler e) NewResponseWriter req).

(** What the evio handler answers: the body of the request. *)
Let echo (req : Request) : option (list byte) :=
  match readall req with
  | None => None
  | Some body =>
      Write {| Evio.StatusCode := 200;
               Evio.ProtoMajor := 1;
               Evio.ProtoMinor := 1;
               Evio.ContentLength := len body;
               Evio.Close := false;
               Evio.Body := body |}
  end.

Lemma gnetHolding_eta (c : GnetLib.Conn) :
  gnetHolding (EvioLib.b (GnetLib.Context c)) = c.
Proof. destruct c as [[buf]]. reflexivity. Qed.

Lemma React_cases (e : Gnet.Engine Request ResponseWriter)
    (in_ : list byte) (c : GnetLib.Conn) :
  React e in_ c =
  if len in_ =? 0 then ((None, GnetLib.None), c)
  else
    let data := EvioLib.b (GnetLib.Context c) ++ in_ in
    match Http.IsRequestComplete data with
    | (_, Some _) => ((None, GnetLib.Close), gnetHolding data)
    | (false, None) => ((None, GnetLib.None), gnetHolding data)
    | (true, None) =>
        match ReadRequest data with
        | None => ((None, GnetLib.Close), gnetHolding data)
        | Some req =>
            match answer e req with
            | None => ((None, GnetLib.Close), gnetHolding data)
            | Some buf =>
                if context.Done (Gnet.ctx e)
                then ((Some buf, GnetLib.Close), gnetHolding data)
                else ((Some buf, GnetLib.None), gnetOpened)
            end
        end
    end.
Proof.
  unfold React, Gnet.React, answer.
  destruct (len in_ =? 0); [reflexivity |].
  cbv [bind GnetLib.onStream EvioLib.Begin EvioLib.End GnetLib.Context
       EvioLib.b ret GnetLib.SetContext].
  destruct c as [[buf]]. cbv zeta.
  destruct (Http.IsRequestComplete (buf ++ in_)) as [[|] [err |]];
    try reflexivity.
  cbn [negb].
  destruct (ReadRequest (buf ++ in_)) as [req |]; [| reflexivity].
  destruct (WriteToBuf _) as [out |]; [| reflexivity].
  destruct (context.Done (Gnet.ctx e)); reflexivity.
Qed.

Lemma Data_cases (ctx : context.Context)
    (in_ : list byte) (c : EvioLib.Conn) :
  Data ctx in_ c =
  if len in_ =? 0 then ((None, EvioLib.None), c)
  else
    let data := EvioLib.b (EvioLib.Context c) ++ in_ in
    match Http.IsRequestComplete data with
    | (_, Some _) => ((None, EvioLib.Close), evioHolding data)
    | (false, None) => ((None, EvioLib.None), evioHolding data)
    | (true, None) =>
        match ReadRequest data with
        | None => ((None, EvioLib.Close), evioHolding data)
        | Some req =>
            match echo req with
            | None => ((None, EvioLib.Close), evioHolding data)
            | Some buf =>
                if context.Done ctx
                then ((None, EvioLib.Close), evioHolding data)
                else ((Some buf, EvioLib.None), evioOpened)
            end
        end
    end.
Proof.
  unfold Data, Evio.Data, echo.
  destruct (len in_ =? 0); [reflexivity |].
  cbv [bind EvioLib.onStream EvioLib.Begin EvioLib.End EvioLib.Context
       EvioLib.b ret EvioLib.SetContext].
  destruct c as [[buf]]. cbv zeta. rewrite isRequestComplete_eq.
  destruct (Http.IsRequestComplete (buf ++ in_)) as [[|] [err |]];
    try reflexivity.
  cbn [negb].
  destruct (ReadRequest (buf ++ in_)) as [req |]; [| reflexivity].
  destruct (readall req) as [body |]; [| reflexivity].
  destruct (Write _) as [out |]; [| reflexivity].
  destruct (context.Done ctx); reflexivity.
Qed.

(** X5. The gnet callback returns bytes only for a buffer that frames
    as COMPLETE and decodes, and the bytes are then the serialized
    answer of the handler to the decoded request. *)
Theorem React_output_is_the_answer
    (e : Gnet.Engine Request ResponseWriter)
    (in_ : list byte) (c : GnetLib.Conn) (buf : list byte) :
  fst (fst (React e in_ c)) = Some buf ->
  let data := EvioLib.b (GnetLib.Context c) ++ in_ in
  in_ <> [] /\
  evaluate data = COMPLETE /\
  exists req, ReadRequest data = Some req /\
    WriteToBuf
      (@Gnet.ServeHTTP _ _ (Gnet.httpHandler e) NewResponseWriter req)
    = Some buf.
Proof.
  rewrite React_cases. cbv zeta. unfold evaluate, answer.
  destruct (len in_ =? 0) eqn:El; [discriminate |].
  apply Z.eqb_neq in El.
  destruct (Http.IsRequestComplete _) as [[|] [err |]];
    try discriminate.
  destruct (ReadRequest _) as [req |]; [| discriminate].
  destruct (WriteToBuf _) as [out |] eqn:Ew; [| discriminate].
  intros H. split; [intros ->; apply El; reflexivity |].
  split; [reflexivity |]. exists req. split; [reflexivity |].
  destruct (context.Done (Gnet.ctx e)); simpl in H; rewrite Ew;
    exact H.
Qed.

(** X6. The evio callback returns bytes only when the shutdown signal
    is not set, for a buffer that frames as COMPLETE and decodes; the
    bytes are then the serialized 200 response that carries the body of
    the request. *)
Theorem Data_output_is_the_echo
    (ctx : context.Context)
    (in_ : list byte) (c : EvioLib.Conn) (buf : list byte) :
  fst (fst (Data ctx in_ c)) = Some buf ->
  let data := EvioLib.b (EvioLib.Context c) ++ in_ in
  context.Done ctx = false /\
  evaluate data = COMPLETE /\
  exists req body,
    ReadRequest data = Some req /\ readall req = Some body /\
    Write {| Evio.StatusCode := 200;
             Evio.ProtoMajor := 1;
             Evio.ProtoMinor := 1;
             Evio.ContentLength := len body;
             Evio.Close := false;
             Evio.Body := body |} = Some buf.
Proof.
  rewrite Data_cases. cbv zeta. unfold evaluate, echo.
  destruct (len in_ =? 0); [discriminate |].
  destruct (Http.IsRequestComplete _) as [[|] [err |]];
    try discriminate.
  destruct (ReadRequest _) as [req |]; [| discriminate].
  destruct (readall req) as [body |] eqn:Eb; [| discriminate].
  destruct (Write _) as [out |] eqn:Ew; [| discriminate].
  destruct (context.Done ctx); [discriminate |].
  intros H. split; [reflexivity |]. split; [reflexivity |].
  exists req, body. split; [reflexivity |]. split; [exact Eb |].
  rewrite Ew. exact H.
Qed.

Lemma React_waits_holds
    (e : Gnet.Engine Request ResponseWriter)
    (in_ : list byte) (c : GnetLib.Conn) :
  fst (React e in_ c) = (None, GnetLib.None) ->
  EvioLib.b (GnetLib.Context (snd (React e in_ c)))
  = EvioLib.b (GnetLib.Context c) ++ in_.
Proof.
  rewrite React_cases. cbv zeta.
  destruct (len in_ =? 0) eqn:El.
  - intros _. apply Z.eqb_eq, len_nil_iff in El. subst in_.
    rewrite app_nil_r. reflexivity.
  - destruct (Http.IsRequestComplete _) as [[|] [err |]];
      try discriminate; [| reflexivity].
    destruct (ReadRequest _) as [req |]; [| discriminate].
    destruct (answer e req) as [out |]; [| discriminate].
    destruct (context.Done (Gnet.ctx e)); discriminate.
Qed.

(** X7. Every call of the gnet callback ends in one of three ways: it
    waits, returning nothing with the accumulated bytes stored; it
    answers, returning bytes and leaving a fresh, empty stream; or it
    closes the connection.  It never asks for a shutdown. *)
Theorem React_outcomes
    (e : Gnet.Engine Request ResponseWriter)
    (in_ : list byte) (c : GnetLib.Conn) :
  React e in_ c
  = ((None, GnetLib.None),
     gnetHolding (EvioLib.b (GnetLib.Context c) ++ in_)) \/
  (exists buf, React e in_ c = ((Some buf, GnetLib.None), gnetOpened)) \/
  snd (fst (React e in_ c)) = GnetLib.Close.
Proof.
  rewrite React_cases. cbv zeta.
  destruct (len in_ =? 0) eqn:El.
  - left. apply Z.eqb_eq, len_nil_iff in El. subst in_.
    rewrite app_nil_r, gnetHolding_eta. reflexivity.
  - destruct (Http.IsRequestComplete _) as [[|] [err |]];
      try (right; right; reflexivity); [| left; reflexivity].
    destruct (ReadRequest _) as [req |]; [| right; right; reflexivity].
    destruct (answer e req) as [out |]; [| right; right; reflexivity].
    destruct (context.Done (Gnet.ctx e)); [right; right; reflexivity |].
    right. left. exists out. reflexivity.
Qed.

(** X8. After an answered request the connection is as freshly opened:
    the next read is framed on its own bytes alone, whatever the
    connection held before. *)
Theorem React_after_answer_starts_clean
    (e : Gnet.Engine Request ResponseWriter)
    (in1 in2 : list byte) (c : GnetLib.Conn) (buf : list byte) :
  fst (React e in1 c) = (Some buf, GnetLib.None) ->
  React e in2 (snd (React e in1 c)) = React e in2 gnetOpened.
Proof.
  rewrite (React_cases e in1 c). cbv zeta.
  destruct (len in1 =? 0); [discriminate |].
  destruct (Http.IsRequestComplete _) as [[|] [err |]];
    try discriminate.
  destruct (ReadRequest _) as [req |]; [| discriminate].
  destruct (answer e req) as [out |]; [| discriminate].
  destruct (context.Done (Gnet.ctx e)); [discriminate |].
  reflexivity.
Qed.

(** X9. As long as the calls return nothing and ask for nothing, the
    connection's buffer is what it held before followed by every
    delivered chunk, in order: no byte is dropped, repeated or
    reordered while the callback waits. *)
Theorem waiting_accumulates_in_order
    (e : Gnet.Engine Request ResponseWriter)
    (chunks : list (list byte)) (c : GnetLib.Conn) :
  Forall (fun r => r = (None, GnetLib.None)) (fst (run e chunks c)) ->
  EvioLib.b (GnetLib.Context (snd (run e chunks c)))
  = EvioLib.b (GnetLib.Context c) ++ concat chunks.
Proof.
  revert c. induction chunks as [| ch rest IH]; intros c H.
  - simpl. rewrite app_nil_r. reflexivity.
  - unfold run in *. simpl in *. unfold bind, ret in *.
    fold (React e ch c) in *.
    destruct (React e ch c) as [r c1] eqn:E1.
    specialize (IH c1).
    destruct (deliver ReadRequest NewResponseWriter WriteToBuf e rest c1)
      as [rs c2] eqn:E2.
    simpl in *. inversion H as [| ? ? Hr Hrs]; subst.
    rewrite (IH Hrs), app_assoc. f_equal.
    pose proof (React_waits_holds e ch c) as Hw.
    rewrite E1 in Hw. apply Hw. reflexivity.
Qed.

(** X10. In the gnet callback the shutdown signal decides nothing but
    what follows an answer: the bytes returned are the same whether it
    is set or not, and a call that returns no bytes has the same result
    and leaves the same connection either way. *)
Theorem React_signal_matters_after_answer_only
    (e1 e2 : Gnet.Engine Request ResponseWriter)
    (in_ : list byte) (c : GnetLib.Conn) :
  Gnet.httpHandler e1 = Gnet.httpHandler e2 ->
  fst (fst (React e1 in_ c)) = fst (fst (React e2 in_ c)) /\
  (fst (fst (React e1 in_ c)) = None -> React e2 in_ c = React e1 in_ c).
Proof.
  intros Hh. rewrite !React_cases. cbv zeta. unfold answer. rewrite Hh.
  destruct (len in_ =? 0); [split; reflexivity |].
  destruct (Http.IsRequestComplete _) as [[|] [err |]];
    try (split; reflexivity).
  destruct (ReadRequest _) as [req |]; [| split; reflexivity].
  destruct (WriteToBuf _) as [out |]; [| split; reflexivity].
  destruct (context.Done (Gnet.ctx e1)), (context.Done (Gnet.ctx e2));
    split; try reflexivity; discriminate.
Qed.

(** X11. The two backends' readable callbacks behave alike.  When the
    gnet handler answers as the evio callback does (the echo of the
    request body) and both see the same shutdown signal, then on the
    same buffer and chunk they ask for the same action and leave the
    same bytes in the buffer, and they return the same bytes, except
    that the evio callback returns none when it closes for shutdown. *)
Theorem backends_agree
    (e : Gnet.Engine Request ResponseWriter) (ctx : context.Context)
    (in_ held : list byte) :
  (forall req,
      WriteToBuf
        (@Gnet.ServeHTTP _ _ (Gnet.httpHandler e) NewResponseWriter req)
      = match readall req with
        | None => None
        | Some body =>
            Write {| Evio.StatusCode := 200;
                     Evio.ProtoMajor := 1;
                     Evio.ProtoMinor := 1;
                     Evio.ContentLength := len body;
                     Evio.Close := false;
                     Evio.Body := body |}
        end) ->
  context.Done (Gnet.ctx e) = context.Done ctx ->
  let g := React e in_ (gnetHolding held) in
  let v := Data ctx in_ (evioHolding held) in
  toEvio (snd (fst g)) = snd (fst v) /\
  EvioLib.b (GnetLib.Context (snd g)) = EvioLib.b (EvioLib.Context (snd v)) /\
  (fst (fst v) = fst (fst g) \/
   (fst (fst v) = None /\ context.Done ctx = true /\
    snd (fst v) = EvioLib.Close)).
Proof.
  intros Hsame Hd. cbv zeta. rewrite React_cases, Data_cases. cbv zeta.
  unfold answer, echo.
  cbn [gnetHolding evioHolding GnetLib.Context EvioLib.Context EvioLib.b].
  destruct (len in_ =? 0); [repeat split; left; reflexivity |].
  destruct (Http.IsRequestComplete _) as [[|] [err |]];
    try (repeat split; left; reflexivity).
  destruct (ReadRequest _) as [req |];
    [| repeat split; left; reflexivity].
  rewrite Hsame.
  destruct (match readall req with
            | Some body => _
            | None => None
            end) as [out |]; [| repeat split; left; reflexivity].
  rewrite Hd.
  destruct (context.Done ctx).
  - split; [reflexivity |]. split; [reflexivity |].
    right. repeat split.
  - repeat split. left. reflexivity.
Qed.

(** X12. A complete request without Content-Length followed by further
    bytes in the same buffer, the token occurring nowhere, is rejected:
    the callback closes the connection and answers neither request.  So
    two requests without body that arrive in one read are not served. *)
Theorem pipelined_bodiless_requests_are_rejected
    (e : Gnet.Engine Request ResponseWriter) (data more : list byte) :
  evaluate data = COMPLETE ->
  ~ occurs Http.contentLengthHeader (data ++ more) ->
  more <> [] ->
  React e (data ++ more) gnetOpened
  = ((None, GnetLib.Close), gnetHolding (data ++ more)).
Proof.
  intros Hv Hc Hm. apply evaluate_COMPLETE in Hv.
  assert (Ht : 0 <= Bytes.Index data Http.headerTerminator).
  { destruct (Z_lt_ge_dec (Bytes.Index data Http.headerTerminator) 0)
      as [H | H]; [| lia].
    rewrite (no_terminator_incomplete _ H) in Hv. discriminate. }
  apply not_occurs_Index in Hc.
  assert (Hne : (len (data ++ more) =? 0) = false).
  { apply len_nonzero. intros E. apply app_eq_nil in E.
    destruct E as [_ E]. auto. }
  assert (Hlen : len data < len (data ++ more)).
  { rewrite len_app. pose proof (len_nonneg more).
    assert (len more <> 0) by (intros E; apply len_nil_iff in E; auto).
    lia. }
  assert (Ht' : 0 <= Bytes.Index (data ++ more) Http.headerTerminator)
    by (rewrite (Index_app_extend data more Http.headerTerminator Ht);
        exact Ht).
  assert (Hhe : headerEnd (data ++ more) <= len data).
  { unfold headerEnd.
    rewrite (Index_app_extend data more Http.headerTerminator Ht).
    apply (headerEnd_le_len _ Ht). }
  rewrite React_cases, Hne. cbv zeta.
  cbn [gnetOpened GnetLib.Context EvioLib.emptyStream EvioLib.b app].
  rewrite (no_length_result _ Ht' Hc).
  destruct (headerEnd (data ++ more) =? len (data ++ more)) eqn:E;
    [apply Z.eqb_eq in E; lia | reflexivity].
Qed.

End Readable.

Lemma React_output_is_the_answer_witness :
  evaluate ([] ++ Sample.get) = COMPLETE.
Proof.
  apply (@React_output_is_the_answer
           (list byte) (list byte) Echo.ReadRequest Echo.NewResponseWriter
           Echo.WriteToBuf (Echo.engine true) Sample.get gnetOpened
           (bytes_of "HTTP/1.1 200 OK" ++ Http.headerTerminator
              ++ Sample.get)).
  reflexivity.
Defined.

Lemma Data_output_is_the_echo_witness :
  context.Done {| context.Done := false |} = false /\
  evaluate ([] ++ Sample.get) = COMPLETE.
Proof.
  destruct (@Data_output_is_the_echo
              (list byte) Echo.ReadRequest Echo.readall Echo.Write
              {| context.Done := false |} Sample.get evioOpened
              (bytes_of "HTTP/1.1 200 OK" ++ Evio.headerTerminator
                 ++ Sample.get) eq_refl) as [Hd [Hv _]].
  split; [exact Hd | exact Hv].
Defined.

Lemma React_after_answer_starts_clean_witness :
  Echo.React false (bytes_of "GET /")
    (snd (Echo.React false Sample.get (gnetHolding [LF])))
  = Echo.React false (bytes_of "GET /") gnetOpened.
Proof.
  apply (@React_after_answer_starts_clean
           (list byte) (list byte) Echo.ReadRequest Echo.NewResponseWriter
           Echo.WriteToBuf (Echo.engine false) Sample.get (bytes_of "GET /")
           (gnetHolding [LF])
           (bytes_of "HTTP/1.1 200 OK" ++ Http.headerTerminator
              ++ [LF] ++ Sample.get)).
  reflexivity.
Defined.

Lemma waiting_accumulates_in_order_witness :
  EvioLib.b
    (GnetLib.Context
       (snd (deliver Echo.ReadRequest Echo.NewResponseWriter
               Echo.WriteToBuf (Echo.engine false)
               [bytes_of "GET / HT"; []; bytes_of "TP/1.1"]
               (gnetHolding [LF]))))
  = [LF] ++ concat [bytes_of "GET / HT"; []; bytes_of "TP/1.1"].
Proof.
  apply (@waiting_accumulates_in_order
           (list byte) (list byte) Echo.ReadRequest Echo.NewResponseWriter
           Echo.WriteToBuf (Echo.engine false)
           [bytes_of "GET / HT"; []; bytes_of "TP/1.1"]
           (gnetHolding [LF])).
  repeat constructor.
Defined.

Lemma React_signal_matters_after_answer_only_witness :
  fst (fst (Echo.React true Sample.get gnetOpened))
  = fst (fst (Echo.React false Sample.get gnetOpened)) /\
  Echo.React false (bytes_of "GET /") gnetOpened
  = Echo.React true (bytes_of "GET /") gnetOpened.
Proof.
  split.
  - apply (@React_signal_matters_after_answer_only
             (list byte) (list byte) Echo.ReadRequest
             Echo.NewResponseWriter Echo.WriteToBuf
             (Echo.engine true) (Echo.engine false)
             Sample.get gnetOpened eq_refl).
  - apply (@React_signal_matters_after_answer_only
             (list byte) (list byte) Echo.ReadRequest
             Echo.NewResponseWriter Echo.WriteToBuf
             (Echo.engine true) (Echo.engine false)
             (bytes_of "GET /") gnetOpened eq_refl).
    reflexivity.
Defined.

Lemma backends_agree_witness :
  toEvio (snd (fst (Echo.React true Sample.get (gnetHolding [LF]))))
  = snd (fst (Echo.Data true Sample.get (evioHolding [LF]))).
Proof.
  apply (@backends_agree
           (list byte) (list byte) Echo.ReadRequest Echo.NewResponseWriter
           Echo.WriteToBuf Echo.readall Echo.Write
           (Echo.engine true) {| context.Done := true |} Sample.get [LF]).
  - intros req. reflexivity.
  - reflexivity.
Defined.

Lemma pipelined_bodiless_requests_are_rejected_witness :
  Echo.React false (Sample.get ++ Sample.get) gnetOpened
  = ((None, GnetLib.Close), gnetHolding (Sample.get ++ Sample.get)).
Proof.
  apply (@pipelined_bodiless_requests_are_rejected
           (list byte) (list byte) Echo.ReadRequest Echo.NewResponseWriter
           Echo.WriteToBuf (Echo.engine false) Sample.get Sample.get).
  - reflexivity.
  - apply not_occurs_by_Index. reflexivity.
  - discriminate.
Defined.

(** ** The hand-written length parser *)

Lemma wrap64_in_range (z : Z) : - 2 ^ 63 <= Http.wrap64 z < 2 ^ 63.
Proof.
  unfold Http.wrap64.
  pose proof (Z.mod_pos_bound (z + 2 ^ 63) (2 ^ 64)) as H. lia.
Qed.

Lemma wrap64_small (z : Z) : - 2 ^ 63 <= z < 2 ^ 63 -> Http.wrap64 z = z.
Proof.
  intros H. unfold Http.wrap64. rewrite Z.mod_small; lia.
Qed.

Lemma wrap64_add_r (a b : Z) :
  Http.wrap64 (a + Http.wrap64 b) = Http.wrap64 (a + b).
Proof.
  unfold Http.wrap64. f_equal.
  replace (a + ((b + 2 ^ 63) mod 2 ^ 64 - 2 ^ 63) + 2 ^ 63)
    with (a + (b + 2 ^ 63) mod 2 ^ 64) by lia.
  rewrite Zplus_mod_idemp_r. f_equal. lia.
Qed.

Lemma wrap64_add_l (a b : Z) :
  Http.wrap64 (Http.wrap64 a + b) = Http.wrap64 (a + b).
Proof.
  rewrite (Z.add_comm (Http.wrap64 a) b), wrap64_add_r.
  f_equal. lia.
Qed.

Lemma out_of_digits (c : byte) :
  (Z.of_N (Byte.to_N c) <? 48) || (Z.of_N (Byte.to_N c) >? 57)
  = negb (is_digit c).
Proof.
  unfold is_digit. rewrite Z.gtb_ltb.
  destruct (Z.ltb_spec (Z.of_N (Byte.to_N c)) 48),
           (Z.leb_spec 48 (Z.of_N (Byte.to_N c))),
           (Z.ltb_spec 57 (Z.of_N (Byte.to_N c))),
           (Z.leb_spec (Z.of_N (Byte.to_N c)) 57);
    simpl; try reflexivity; lia.
Qed.

Lemma byteToIntSlice_digit (c : byte) :
  is_digit c = true ->
  nth_error Http.byteToIntSlice (Z.to_nat (Z.of_N (Byte.to_N c)))
  = Some (digit_value c).
Proof.
  destruct c; intros H; try discriminate H; reflexivity.
Qed.

Lemma digit_value_range (c : byte) :
  is_digit c = true -> 0 <= digit_value c <= 9.
Proof.
  unfold is_digit, digit_value. intros H.
  apply andb_true_iff in H. destruct H as [H1 H2].
  apply Z.leb_le in H1, H2. lia.
Qed.

Lemma fold_decimal (s : list byte) (a : Z) :
  fold_left (fun acc c => acc * 10 + digit_value c) s a
  = a * 10 ^ len s + decimal s.
Proof.
  unfold decimal. revert a. induction s as [| c s IH]; intros a.
  - simpl. change (len (@nil byte)) with 0. lia.
  - cbn [fold_left]. rewrite IH, (IH (0 * 10 + digit_value c)).
    replace (len (c :: s)) with (len s + 1)
      by (unfold len; simpl length; lia).
    rewrite Z.pow_add_r by (try apply len_nonneg; lia). lia.
Qed.

Lemma decimal_cons (c : byte) (s : list byte) :
  decimal (c :: s) = digit_value c * 10 ^ len s + decimal s.
Proof.
  unfold decimal at 1. cbn [fold_left]. rewrite fold_decimal. lia.
Qed.

Lemma decimal_bounds (s : list byte) :
  forallb is_digit s = true -> 0 <= decimal s < 10 ^ len s.
Proof.
  induction s as [| c s IH]; intros H.
  - change (decimal []) with 0. change (len (@nil byte)) with 0. lia.
  - simpl in H. apply andb_true_iff in H. destruct H as [Hc Hs].
    rewrite decimal_cons.
    replace (len (c :: s)) with (len s + 1)
      by (unfold len; simpl length; lia).
    rewrite Z.pow_add_r by (try apply len_nonneg; lia).
    pose proof (digit_value_range c Hc). specialize (IH Hs).
    pose proof (len_nonneg s).
    assert (0 < 10 ^ len s) by (apply Z.pow_pos_nonneg; lia).
    nia.
Qed.

Section LengthParser.

Variable pow10_beyond_int64 : Z -> Z.

Let parseContentLength := Http.parseContentLength pow10_beyond_int64.
Let loop := Http.parseContentLength_loop pow10_beyond_int64.

Lemma loop_rejects (rest : list byte) (zeroes acc : Z) :
  forallb is_digit rest = false ->
  loop rest zeroes acc = Http.Returns (-1, Some errBadRequest).
Proof.
  revert zeroes acc.
  induction rest as [| c rest IH]; intros zeroes acc H;
    [discriminate |].
  unfold loop in *. cbn [Http.parseContentLength_loop]. cbv zeta.
  rewrite out_of_digits. simpl in H.
  destruct (is_digit c) eqn:Ed; [| reflexivity].
  simpl in H. cbn [negb]. rewrite (byteToIntSlice_digit c Ed).
  pose proof (digit_value_range c Ed) as Hv.
  destruct (digit_value c <? 0) eqn:En; [apply Z.ltb_lt in En; lia |].
  apply IH, H.
Qed.

Lemma loop_accepts (rest : list byte) (acc : Z) :
  forallb is_digit rest = true ->
  len rest <= 19 ->
  - 2 ^ 63 <= acc < 2 ^ 63 ->
  loop rest (len rest - 1) acc
  = Http.Returns (Http.wrap64 (acc + decimal rest), None).
Proof.
  revert acc.
  induction rest as [| c rest IH]; intros acc H Hl Hr.
  - simpl. change (decimal []) with 0.
    rewrite Z.add_0_r, wrap64_small by exact Hr. reflexivity.
  - unfold loop in *. cbn [Http.parseContentLength_loop]. cbv zeta.
    rewrite out_of_digits. simpl in H.
    apply andb_true_iff in H. destruct H as [Ed Hs].
    rewrite Ed. cbn [negb]. rewrite (byteToIntSlice_digit c Ed).
    pose proof (digit_value_range c Ed) as Hv.
    destruct (digit_value c <? 0) eqn:En; [apply Z.ltb_lt in En; lia |].
    assert (Hlen : len (c :: rest) - 1 = len rest)
      by (unfold len; simpl List.length; lia).
    rewrite Hlen.
    pose proof (len_nonneg rest) as Hn.
    assert (Hstep :
      (if len rest =? 0
       then Http.wrap64 (acc + digit_value c)
       else Http.wrap64
              (acc
               + Http.wrap64
                   (digit_value c
                    * Http.Pow10_int64 pow10_beyond_int64 (len rest))))
      = Http.wrap64 (acc + digit_value c * 10 ^ len rest)).
    { destruct (len rest =? 0) eqn:E0.
      - apply Z.eqb_eq in E0. rewrite E0. f_equal. lia.
      - unfold Http.Pow10_int64.
        assert (L18 : (len rest <=? 18) = true) by (apply Z.leb_le; lia).
        rewrite L18. apply wrap64_add_r. }
    rewrite Hstep, IH.
    + rewrite wrap64_add_l, decimal_cons. do 3 f_equal. lia.
    + exact Hs.
    + lia.
    + apply wrap64_in_range.
Qed.

(** X13. On the empty input the parser panics (it indexes the first
    byte).  On any other input it returns: -1 with [errBadRequest] when
    some byte is not a decimal digit, a leading sign included, and a
    value without error when every byte is a digit. *)
Theorem parseContentLength_outcomes (clen : list byte) :
  match clen with
  | [] => parseContentLength clen = Http.Panics
  | _ :: _ =>
      if forallb is_digit clen
      then exists v, parseContentLength clen = Http.Returns (v, None)
      else parseContentLength clen = Http.Returns (-1, Some errBadRequest)
  end.
Proof.
  destruct clen as [| c0 rest]; [reflexivity |].
  unfold parseContentLength, Http.parseContentLength. cbv zeta.
  rewrite out_of_digits.
  destruct (forallb is_digit (c0 :: rest)) eqn:E.
  - pose proof E as E'. simpl in E'. apply andb_true_iff in E'.
    destruct E' as [E0 _]. rewrite E0. cbn [negb].
    clear E0. fold loop.
    generalize (len (c0 :: rest) - 1), 0.
    induction (c0 :: rest) as [| c s IH]; intros zeroes acc.
    + eexists. reflexivity.
    + unfold loop in *. cbn [Http.parseContentLength_loop]. cbv zeta.
      rewrite out_of_digits. simpl in E.
      apply andb_true_iff in E. destruct E as [Ed Es].
      rewrite Ed. cbn [negb]. rewrite (byteToIntSlice_digit c Ed).
      pose proof (digit_value_range c Ed) as Hv.
      destruct (digit_value c <? 0) eqn:En;
        [apply Z.ltb_lt in En; lia |].
      apply IH, Es.
  - destruct (is_digit c0) eqn:E0; [| reflexivity].
    cbn [negb]. apply loop_rejects, E.
Qed.

(** X14. On a string of at most nineteen decimal digits the parser
    returns the number the digits denote, wrapped around into [int64],
    and no error. *)
Theorem parseContentLength_value (clen : list byte) :
  clen <> [] ->
  forallb is_digit clen = true ->
  len clen <= 19 ->
  parseContentLength clen
  = Http.Returns (Http.wrap64 (decimal clen), None).
Proof.
  intros Hne Hd Hl. destruct clen as [| c0 rest]; [contradiction |].
  unfold parseContentLength, Http.parseContentLength. cbv zeta.
  rewrite out_of_digits.
  pose proof Hd as Hd'. simpl in Hd'. apply andb_true_iff in Hd'.
  destruct Hd' as [E0 _]. rewrite E0. cbn [negb].
  fold loop. rewrite (loop_accepts (c0 :: rest) Hd Hl); [| lia].
  reflexivity.
Qed.

End LengthParser.

Lemma digit_is_no_sign (c : byte) :
  is_digit c = true -> Byte.eqb c x2b || Byte.eqb c x2d = false.
Proof.
  destruct c; intros H; try discriminate H; reflexivity.
Qed.

Lemma parse_digits_accepts (s : list byte) (n : Z) :
  forallb is_digit s = true ->
  0 <= n ->
  n * 10 ^ len s + decimal s <= Strconv.maxUint64 ->
  Strconv.parse_digits s n = (n * 10 ^ len s + decimal s, None).
Proof.
  revert n. induction s as [| c s IH]; intros n Hd Hn Hb.
  - simpl. change (len (@nil byte)) with 0. change (decimal []) with 0.
    f_equal. lia.
  - simpl in Hd. apply andb_true_iff in Hd. destruct Hd as [Ec Hs].
    pose proof (digit_value_range c Ec) as Hv.
    pose proof (decimal_bounds s Hs) as Hds.
    pose proof (len_nonneg s) as Hl.
    assert (Hp : 0 < 10 ^ len s) by (apply Z.pow_pos_nonneg; lia).
    replace (len (c :: s)) with (len s + 1) in *
      by (unfold len; simpl List.length; lia).
    rewrite decimal_cons in *.
    rewrite Z.pow_add_r in * by lia.
    change (10 ^ 1) with 10 in *.
    assert (Hmax : Strconv.maxUint64 = 18446744073709551615)
      by reflexivity.
    rewrite Hmax in Hb.
    assert (Hsmall : n * 10 + digit_value c <= 18446744073709551615)
      by nia.
    cbn [Strconv.parse_digits]. cbv zeta. fold (is_digit c).
    fold (digit_value c). rewrite Ec.
    change (Strconv.maxUint64 / 10 + 1) with 1844674407370955162.
    destruct (n >=? 1844674407370955162) eqn:E1;
      [apply Z.geb_le in E1; lia |].
    change (2 ^ 64) with 18446744073709551616.
    rewrite (Z.mod_small (n * 10 + digit_value c)) by lia.
    destruct (n * 10 + digit_value c <? n * 10) eqn:E2;
      [apply Z.ltb_lt in E2; lia |].
    rewrite Hmax.
    destruct (n * 10 + digit_value c >? 18446744073709551615) eqn:E3;
      [apply Z.gtb_lt in E3; lia |].
    cbn [orb]. rewrite IH; [f_equal; lia | exact Hs | lia | rewrite Hmax; lia].
Qed.

Lemma ParseInt_digits (s : list byte) :
  s <> [] ->
  forallb is_digit s = true ->
  decimal s <= Strconv.maxUint64 ->
  Strconv.ParseInt s
  = if decimal s >=? 2 ^ 63 then (2 ^ 63 - 1, Some Strconv.ErrRange)
    else (decimal s, None).
Proof.
  intros Hne Hd Hb. destruct s as [| c s']; [contradiction |].
  pose proof Hd as Hd'. simpl in Hd'. apply andb_true_iff in Hd'.
  destruct Hd' as [Ec _].
  pose proof (digit_is_no_sign c Ec) as Hsign.
  apply orb_false_iff in Hsign. destruct Hsign as [Hplus Hminus].
  unfold Strconv.ParseInt. cbv zeta. rewrite Hplus, Hminus. cbn [orb].
  unfold Strconv.ParseUint.
  rewrite (@parse_digits_accepts (c :: s') 0 Hd); [| lia | lia].
  cbn [negb andb]. rewrite Z.mul_0_l, Z.add_0_l. reflexivity.
Qed.

(** X15. On a string of decimal digits whose number fits [int64], the
    hand-written parser and [strconv.ParseInt], which the framing
    function calls, return the same value and no error. *)
Theorem parseContentLength_agrees_with_ParseInt
    (pow10_beyond_int64 : Z -> Z) (clen : list byte) :
  clen <> [] ->
  forallb is_digit clen = true ->
  len clen <= 19 ->
  decimal clen < 2 ^ 63 ->
  Http.parseContentLength pow10_beyond_int64 clen
  = Http.Returns (decimal clen, None) /\
  Strconv.ParseInt clen = (decimal clen, None).
Proof.
  intros Hne Hd Hl Hv.
  pose proof (decimal_bounds clen Hd) as Hb. split.
  - destruct clen as [| c0 rest]; [contradiction |].
    unfold Http.parseContentLength. cbv zeta. rewrite out_of_digits.
    pose proof Hd as Hd'. simpl in Hd'. apply andb_true_iff in Hd'.
    destruct Hd' as [E0 _]. rewrite E0. cbn [negb].
    rewrite (@loop_accepts pow10_beyond_int64 (c0 :: rest) 0 Hd Hl);
      [| lia].
    rewrite Z.add_0_l, wrap64_small; [reflexivity | lia].
  - rewrite (ParseInt_digits Hne Hd).
    + destruct (decimal clen >=? 2 ^ 63) eqn:E; [| reflexivity].
      apply Z.geb_le in E. lia.
    + change Strconv.maxUint64 with 18446744073709551615.
      change (2 ^ 63) with 9223372036854775808 in Hv. lia.
Qed.

Lemma parseContentLength_agrees_with_ParseInt_witness :
  Http.parseContentLength (fun _ => 0) (bytes_of "1234")
  = Http.Returns (1234, None) /\
  Strconv.ParseInt (bytes_of "1234") = (1234, None).
Proof.
  apply (@parseContentLength_agrees_with_ParseInt
           (fun _ => 0) (bytes_of "1234")).
  - discriminate.
  - reflexivity.
  - vm_compute. discriminate.
  - reflexivity.
Defined.

(** X16. On nineteen decimal digits whose number is beyond [int64], the
    hand-written parser does not report the overflow: it returns the
    number less 2^64, which is negative, and no error, where
    [strconv.ParseInt] returns a range error. *)
Theorem parseContentLength_wraps_silently
    (pow10_beyond_int64 : Z -> Z) (clen : list byte) :
  forallb is_digit clen = true ->
  len clen = 19 ->
  2 ^ 63 <= decimal clen ->
  Http.parseContentLength pow10_beyond_int64 clen
  = Http.Returns (decimal clen - 2 ^ 64, None) /\
  decimal clen - 2 ^ 64 < 0 /\
  snd (Strconv.ParseInt clen) = Some Strconv.ErrRange.
Proof.
  intros Hd Hl Hv.
  pose proof (decimal_bounds clen Hd) as Hb. rewrite Hl in Hb.
  change (10 ^ 19) with 10000000000000000000 in Hb.
  change (2 ^ 63) with 9223372036854775808 in Hv.
  assert (Hne : clen <> []) by (intros ->; discriminate Hl).
  split; [| split].
  - destruct clen as [| c0 rest]; [contradiction |].
    unfold Http.parseContentLength. cbv zeta. rewrite out_of_digits.
    pose proof Hd as Hd'. simpl in Hd'. apply andb_true_iff in Hd'.
    destruct Hd' as [E0 _]. rewrite E0. cbn [negb].
    rewrite (@loop_accepts pow10_beyond_int64 (c0 :: rest) 0 Hd);
      [| lia | lia].
    rewrite Z.add_0_l. do 2 f_equal. unfold Http.wrap64.
    change (2 ^ 63) with 9223372036854775808.
    change (2 ^ 64) with 18446744073709551616.
    replace (decimal (c0 :: rest) + 9223372036854775808)
      with (decimal (c0 :: rest) - 9223372036854775808
            + 1 * 18446744073709551616) by lia.
    rewrite Z_mod_plus_full, Z.mod_small; lia.
  - change (2 ^ 64) with 18446744073709551616. lia.
  - rewrite (ParseInt_digits Hne Hd).
    + destruct (decimal clen >=? 2 ^ 63) eqn:E; [reflexivity |].
      change (2 ^ 63) with 9223372036854775808 in E.
      destruct (Z.geb_spec (decimal clen) 9223372036854775808); [discriminate | lia].
    + change Strconv.maxUint64 with 18446744073709551615. lia.
Qed.

Lemma parseContentLength_wraps_silently_witness :
  Http.parseContentLength (fun _ => 0) (bytes_of "9999999999999999999")
  = Http.Returns (-8446744073709551617, None).
Proof.
  apply (@parseContentLength_wraps_silently
           (fun _ => 0) (bytes_of "9999999999999999999")).
  - reflexivity.
  - reflexivity.
  - vm_compute. discriminate.
Defined.

(** X17. The two digit lookups agree on the decimal digits, where both
    give the digit's value; on every other byte [byteToIntJump] gives
    -1, where [byteToIntSlice] holds 0 or is indexed out of range. *)
Theorem digit_lookups_agree (b : byte) :
  (is_digit b = true ->
   Http.byteToIntJump b = digit_value b /\
   nth_error Http.byteToIntSlice (Z.to_nat (Z.of_N (Byte.to_N b)))
   = Some (Http.byteToIntJump b)) /\
  (is_digit b = false ->
   Http.byteToIntJump b = -1 /\
   (nth_error Http.byteToIntSlice (Z.to_nat (Z.of_N (Byte.to_N b)))
    = Some 0 \/
    nth_error Http.byteToIntSlice (Z.to_nat (Z.of_N (Byte.to_N b)))
    = None)).
Proof.
  destruct b; (split; intros H; [try discriminate H |]);
    try discriminate H; split; try reflexivity;
    try (left; reflexivity); right; reflexivity.
Qed.

Lemma digit_lookups_agree_witness :
  Http.byteToIntJump x37 = 7 /\ Http.byteToIntJump x2b = -1.
Proof.
  split.
  - apply (proj1 (digit_lookups_agree x37)). reflexivity.
  - apply (proj2 (digit_lookups_agree x2b)). reflexivity.
Defined.

Lemma parseContentLength_value_witness :
  Http.parseContentLength (fun _ => 0) (bytes_of "0042")
  = Http.Returns (42, None).
Proof.
  apply (@parseContentLength_value (fun _ => 0) (bytes_of "0042")).
  - discriminate.
  - reflexivity.
  - vm_compute. discriminate.
Defined.
